(** * Virgilio: read-only queries over the 34 chants of the Inferno

    A shallow embedding of [src/virgilio.py] (class [Virgilio]) and the
    properties of its query layer.

    Modelling decisions, in the order the file introduces them:
    - a Python [str] is the list of its Unicode code points ([list N]);
    - Python values that can reach a dynamically checked parameter are the
      inductive [value]; [bool] is a subclass of [int], as in Python;
    - the file system is a read-only record [Disk]; [open] followed by
      [readlines] is one lookup that gives the raw lines or fails;
    - effects are a writer/error monad [io]: every call yields the trace of
      what it did to the outside world (files opened, lines printed, report
      written) and either a returned value or a raised exception;
    - a Python [float] is an IEEE 754 binary64 value, in the representation
      of the Standard Library's [SpecFloat]; [int / int] is its division,
      which rounds the exact quotient once, to nearest, ties to even. *)

From Stdlib Require Import ZArith NArith String Ascii DecimalString Lia.
From Stdlib Require SpecFloat.
From Stdlib Require DecimalZ DecimalPos.
From stdpp Require Import base list gmap.

Local Open Scope Z_scope.

(** ** Strings *)

Module Str.

Definition str := list N.

(** A literal of the source, as code points. *)
Definition lit (s : string) : str :=
  List.map N_of_ascii (list_ascii_of_string s).

(** [str.isspace] on one code point (the White_Space table of CPython). *)
Definition isspace (c : N) : bool :=
  ((9 <=? c) && (c <=? 13) || (28 <=? c) && (c <=? 32)
   || (c =? 133) || (c =? 160) || (c =? 5760)
   || (8192 <=? c) && (c <=? 8202)
   || (c =? 8232) || (c =? 8233) || (c =? 8239) || (c =? 8287)
   || (c =? 12288))%N.

Fixpoint lstrip (s : str) : str :=
  match s with
  | c :: s' => if isspace c then lstrip s' else s
  | [] => []
  end.

Definition rstrip (s : str) : str := rev (lstrip (rev s)).

(** [s.strip()] *)
Definition strip (s : str) : str := rstrip (lstrip s).

Definition eqb (a b : str) : bool := bool_decide (a = b).

(** [s.startswith(sub)] *)
Fixpoint startswith (sub s : str) : bool :=
  match sub, s with
  | [], _ => true
  | _ :: _, [] => false
  | a :: sub', b :: s' => (a =? b)%N && startswith sub' s'
  end.

(** [sub in s] *)
Fixpoint contains (sub s : str) : bool :=
  startswith sub s ||
  match s with
  | [] => false
  | _ :: s' => contains sub s'
  end.

(** [s.count(sub)]: matches are taken left to right and do not overlap;
    [skip] is the number of positions still covered by the last match.
    The empty [sub] matches once at every position, the end included. *)
Fixpoint count_from (sub s : str) (skip : nat) : nat :=
  match s with
  | [] => match sub with [] => 1 | _ => 0 end
  | _ :: s' =>
      match skip with
      | S k => count_from sub s' k
      | O => if startswith sub s
             then S (count_from sub s' (Nat.pred (length sub)))
             else count_from sub s' 0
      end
  end%nat.

Definition count (s sub : str) : Z := Z.of_nat (count_from sub s 0).

(** ["".join(lines)] *)
Definition join (lines : list str) : str := concat lines.

(** [len(s)] *)
Definition len {A} (l : list A) : Z := Z.of_nat (length l).

(** [str(n)] for an [int]. *)
Definition of_int (z : Z) : str := lit (NilZero.string_of_int (Z.to_int z)).

End Str.
Import Str.

(** ** Sequences *)

(** [l[:k]]: a negative bound counts from the end, and either bound is
    clamped to the list. *)
Definition slice_to {A} (l : list A) (k : Z) : list A :=
  let stop := if k <? 0 then Z.max (len l + k) 0 else Z.min k (len l) in
  take (Z.to_nat stop) l.

(** [range(a, b)] *)
Definition range (a b : Z) : list Z :=
  List.map (fun i => a + Z.of_nat i) (seq 0 (Z.to_nat (b - a))).

(** [max(l, key=len, default=None)]: the running maximum is replaced only by
    a strictly longer item. *)
Definition longer (best y : str) : str := if len best <? len y then y else best.

Definition max_by_len (l : list str) : option str :=
  match l with
  | [] => None
  | x :: l' => Some (foldl longer x l')
  end.

(** [sum(len(verse) for verse in verses)] *)
Definition sum_len (verses : list str) : Z :=
  foldl (fun acc verse => acc + len verse) 0 verses.

(** ** Floats *)

(** A Python [float]: an IEEE 754 binary64 value, [S754_finite s m e]
    standing for (-1)^s * m * 2^e. *)
Definition float : Type := SpecFloat.spec_float.

(** [0.0] *)
Definition zero_float : float := SpecFloat.S754_zero false.

(** An [int] as a binary number of mantissa |z| and exponent 0: exact,
    whatever the size of [z]. *)
Definition float_of_int (z : Z) : float :=
  match z with
  | Z0 => SpecFloat.S754_zero false
  | Zpos p => SpecFloat.S754_finite false p 0
  | Zneg p => SpecFloat.S754_finite true p 0
  end.

(** The double nearest to a / b, ties to even, for b other than 0: what
    [a / b] evaluates to on two [int]s. [None] when that double would be
    2^1024 or more in magnitude. A zero [a] gives a zero of the sign of
    [b]; a quotient too small for a double gives a zero. *)
Definition nearest_double (a b : Z) : option float :=
  match SpecFloat.SFdiv 53 1024 (float_of_int a) (float_of_int b) with
  | SpecFloat.S754_infinity _ => None
  | q => Some q
  end.

(** ** Python values, exceptions and effects *)

(** What a caller can pass where the source checks a type at run time. *)
#[warnings="-register-all"] Inductive value :=
| VNone
| VBool (b : bool)
| VInt (z : Z)
| VFloat (f : float)
| VStr (s : str)
| VList (items : list value).

(** [type(of).__name__] *)
Definition type_name (v : value) : str :=
  match v with
  | VNone => lit "NoneType"
  | VBool _ => lit "bool"
  | VInt _ => lit "int"
  | VFloat _ => lit "float"
  | VStr _ => lit "str"
  | VList _ => lit "list"
  end.

(** The instances of [int]: integers and, [bool] being a subclass, booleans. *)
Inductive pyint :=
| IInt (z : Z)
| IBool (b : bool).

(** [isinstance(v, int)], with the instance when it holds. *)
Definition as_int (v : value) : option pyint :=
  match v with
  | VInt z => Some (IInt z)
  | VBool b => Some (IBool b)
  | _ => None
  end.

(** The number an [int] instance compares as. *)
Definition int_val (i : pyint) : Z :=
  match i with
  | IInt z => z
  | IBool b => if b then 1 else 0
  end.

(** How an f-string renders an [int] instance: [f"{True}"] is ["True"]. *)
Definition format_int (i : pyint) : str :=
  match i with
  | IInt z => of_int z
  | IBool b => if b then lit "True" else lit "False"
  end.

(** [isinstance(v, str)], with the string when it holds. *)
Definition as_str (v : value) : option str :=
  match v with
  | VStr s => Some s
  | _ => None
  end.

(** [isinstance(words, list) and all(isinstance(word, str) for word in words)],
    with the strings when it holds. *)
Definition as_str_list (words : value) : option (list str) :=
  match words with
  | VList items => mapM as_str items
  | _ => None
  end.

Inductive exn :=
| TypeError (msg : str)
| ValueError (msg : str)
| CantoNotFoundError (msg : str)
| ZeroDivisionError (msg : str)
| OverflowError (msg : str)
| Exception (msg : str).

(** [str(e)] *)
Definition exn_msg (e : exn) : str :=
  match e with
  | TypeError m | ValueError m | CantoNotFoundError m
  | ZeroDivisionError m | OverflowError m | Exception m => m
  end.

Inductive mode := ReadMode | WriteMode.

(** What a call does to the world outside the interpreter. *)
Inductive event :=
| EOpen (path : str) (m : mode)
| EPrint (line : str)
| EDump (report : gmap str Z).

Inductive outcome (A : Type) :=
| Return (a : A)
| Raise (e : exn).
Arguments Return {A} a.
Arguments Raise {A} e.

(** A computation: the trace of its effects and how it ended. *)
Definition io (A : Type) : Type := list event * outcome A.

Definition ret {A} (a : A) : io A := ([], Return a).
Definition raise {A} (e : exn) : io A := ([], Raise e).
Definition emit (ev : event) : io unit := ([ev], Return tt).

Definition bind {A B} (m : io A) (f : A -> io B) : io B :=
  match m with
  | (t, Return a) => let (t', r) := f a in (t ++ t', r)
  | (t, Raise e) => (t, Raise e)
  end.

(** [try: m  except Exception as e: handler(e)] *)
Definition try_except {A} (m : io A) (handler : exn -> io A) : io A :=
  match m with
  | (t, Return a) => (t, Return a)
  | (t, Raise e) => let (t', r) := handler e in (t ++ t', r)
  end.

Declare Scope io_scope.
Delimit Scope io_scope with io.
Notation "'let*' x ':=' m 'in' k" := (bind m (fun x => k))
  (at level 10, x name, m at level 100, k at level 200) : io_scope.
Local Open Scope io_scope.

(** [for x in xs: acc = body(acc, x)] *)
Fixpoint for_each {A St} (xs : list A) (body : St -> A -> io St) (acc : St)
  : io St :=
  match xs with
  | [] => ret acc
  | x :: xs' => let* acc' := body acc x in for_each xs' body acc'
  end.

Definition trace {A} (m : io A) : list event := fst m.
Definition result {A} (m : io A) : outcome A := snd m.

(** [a / b] on two [int]s. *)
Definition truediv (a b : Z) : io float :=
  if b =? 0 then raise (ZeroDivisionError (lit "division by zero"))
  else match nearest_double a b with
       | Some q => ret q
       | None =>
           raise (OverflowError
                    (lit "integer division result too large for a float"))
       end.

(** ** The world *)

(** The file system as the calls see it. [file_lines p] is what
    [open(p, 'r', encoding='utf-8').readlines()] gives, [None] when opening,
    reading or decoding raises. [report_failure] is [Some text] when writing
    the report raises an exception whose [str] is [text]. *)
Record Disk := {
  isdir : str -> bool;
  file_lines : str -> option (list str);
  report_failure : option str
}.

(** [os.path.join(directory, name)] for a relative [name] (POSIX). *)
Definition path_join (directory name : str) : str :=
  match last directory with
  | None => name
  | Some c => if (c =? 47)%N then directory ++ name
              else directory ++ lit "/" ++ name
  end.

(** The object: its only field is [__directory]. *)
Record Virgilio := { directory : str }.

(** [Virgilio(directory)] *)
Definition init (disk : Disk) (directory : str) : outcome Virgilio :=
  if negb (isdir disk directory)
  then Raise (ValueError (lit "Directory '" ++ directory ++ lit "' does not exist"))
  else Return {| directory := directory |}.

(** What [read_canto_lines] returns: the lines, or an error message. *)
Inductive lines_or_str :=
| Lines (lines : list str)
| Message (text : str).

(** The dictionary [get_longest_canto] fills in. *)
Record longest := {
  canto_number : option Z;
  canto_len : Z
}.

(** How an f-string renders a chant number. The sites that use it come after
    a successful [read_canto_lines], so only [int] instances reach it. *)
Definition format_number (canto_number : value) : str :=
  match as_int canto_number with
  | Some i => format_int i
  | None => type_name canto_number
  end.

Section Queries.

Variable self : Virgilio.
Variable disk : Disk.

Definition canto_path (n : pyint) : str :=
  path_join (directory self) (lit "Canto_" ++ format_int n ++ lit ".txt").

Definition read_canto_lines (canto_number : value) (strip_lines : bool)
    (num_lines : option Z) : io lines_or_str :=
  match as_int canto_number with
  | None => raise (TypeError (lit "canto_number must be an integer"))
  | Some n =>
      if negb ((1 <=? int_val n) && (int_val n <=? 34))
      then raise (CantoNotFoundError (lit "canto_number must be between 1 and 34"))
      else
        let file_path := canto_path n in
        let* _ := emit (EOpen file_path ReadMode) in
        match file_lines disk file_path with
        | Some lines =>
            let lines := if strip_lines then List.map strip lines else lines in
            let lines := match num_lines with
                         | Some k => slice_to lines k
                         | None => lines
                         end in
            ret (Lines lines)
        | None => ret (Message (lit "error while opening " ++ file_path))
        end
  end.

(** The guard every caller of [read_canto_lines] repeats. *)
Definition checked (canto_number : value) (r : lines_or_str) : io (list str) :=
  match r with
  | Message text =>
      raise (Exception (lit "Error reading chant " ++ format_number canto_number
                        ++ lit ": " ++ text))
  | Lines lines => ret lines
  end.

Definition count_verses (canto_number : value) : io Z :=
  let* lines := read_canto_lines canto_number false None in
  let* lines := checked canto_number lines in
  ret (len lines).

Definition count_tercets (canto_number : value) : io Z :=
  let* num_verses := count_verses canto_number in
  let num_tercets := num_verses / 3 in
  ret num_tercets.

Definition word_type_error {A} (word : value) : io A :=
  raise (TypeError (lit "word must be of type string, is " ++ type_name word)).

Definition count_word (canto_number word : value) : io Z :=
  match as_str word with
  | None => word_type_error word
  | Some word =>
      let* lines := read_canto_lines canto_number false None in
      let* lines := checked canto_number lines in
      let single_line_chant := join lines in
      ret (count single_line_chant word)
  end.

Definition get_verse_with_word (canto_number word : value) : io (option str) :=
  match as_str word with
  | None => word_type_error word
  | Some word =>
      let* lines := read_canto_lines canto_number true None in
      let* lines := checked canto_number lines in
      ret (List.find (contains word) lines)
  end.

(** [xs or None] *)
Definition or_None {A} (xs : list A) : option (list A) :=
  match xs with
  | [] => None
  | _ => Some xs
  end.

Definition get_verses_with_word (canto_number word : value)
  : io (option (list str)) :=
  match as_str word with
  | None => word_type_error word
  | Some word =>
      let* lines := read_canto_lines canto_number true None in
      let* lines := checked canto_number lines in
      ret (or_None (List.filter (contains word) lines))
  end.

Definition get_longest_verse (canto_number : value) : io (option str) :=
  let* lines := read_canto_lines canto_number true None in
  let* lines := checked canto_number lines in
  ret (max_by_len lines).

(** [print(f"Error processing {label} {canto_number}: {e}")] *)
Definition log_error {A} (label : str) (canto_number : Z) (keep : A) (e : exn)
  : io A :=
  let* _ := emit (EPrint (lit "Error processing " ++ label ++ lit " "
                          ++ of_int canto_number ++ lit ": " ++ exn_msg e)) in
  ret keep.

Definition get_longest_canto : io longest :=
  let longest_chant := {| canto_number := None; canto_len := 0 |} in
  for_each (range 1 35)
    (fun longest_chant canto_number =>
       try_except
         (let* num_verses := count_verses (VInt canto_number) in
          if canto_len longest_chant <? num_verses
          then ret {| canto_number := Some canto_number;
                      canto_len := num_verses |}
          else ret longest_chant)
         (log_error (lit "Canto") canto_number longest_chant))
    longest_chant.

Definition count_words (canto_number words : value) : io (gmap str Z) :=
  match as_str_list words with
  | None =>
      raise (TypeError (lit "words must be a list of strings, is "
                        ++ type_name words))
  | Some words =>
      let* lines := read_canto_lines canto_number true None in
      let* lines := checked canto_number lines in
      let full_text := join lines in
      let word_counts : gmap str Z :=
        foldl (fun d word => <[word := count full_text word]> d) ∅ words in
      let output_json_name := lit "word_counts.json" in
      let* _ := emit (EOpen output_json_name WriteMode) in
      match report_failure disk with
      | Some e =>
          raise (Exception (lit "Error writing to JSON file "
                            ++ output_json_name ++ lit ": " ++ e))
      | None =>
          let* _ := emit (EDump word_counts) in
          ret word_counts
      end
  end.

Definition get_hell_verses : io (list str) :=
  for_each (range 1 35)
    (fun hell_verses canto_number =>
       try_except
         (let* lines := read_canto_lines (VInt canto_number) true None in
          let* lines := checked (VInt canto_number) lines in
          ret (hell_verses ++ lines))
         (log_error (lit "Canto") canto_number hell_verses))
    [].

Definition count_hell_verses : io Z :=
  for_each (range 1 35)
    (fun total_verses canto_number =>
       try_except
         (let* num_verses := count_verses (VInt canto_number) in
          ret (total_verses + num_verses))
         (log_error (lit "Chant") canto_number total_verses))
    0.

Definition get_hell_verse_mean_len : io float :=
  let* total_verses := count_hell_verses in
  if total_verses =? 0 then ret zero_float
  else
    let* total_verses_len :=
      for_each (range 1 35)
        (fun total_verses_len canto_number =>
           try_except
             (let* verses := read_canto_lines (VInt canto_number) true None in
              let* verses := checked (VInt canto_number) verses in
              ret (total_verses_len + sum_len verses))
             (log_error (lit "Canto") canto_number total_verses_len))
        0 in
    truediv total_verses_len total_verses.

End Queries.

(** ** The module body *)

(** The statements at the bottom of the module, run when it is imported:
    build the object on the [chants] directory beside the module, count five
    words in chant 1 and print the result, or the error. [module_dir] is
    [os.path.dirname(__file__)]; [repr_dict] is how [print] renders a
    dictionary. *)
Definition main (module_dir : str) (disk : Disk) (repr_dict : gmap str Z → str)
  : io unit :=
  let directory := path_join module_dir (lit "chants") in
  match init disk directory with
  | Raise e => raise e
  | Return v =>
      try_except
        (let* result :=
           count_words v disk (VInt 1)
             (VList [VStr (lit "f"); VStr (lit "g"); VStr (lit "d");
                     VStr (lit "canto"); VStr (lit "inferno")]) in
         emit (EPrint (repr_dict result)))
        (fun e =>
           match e with
           | CantoNotFoundError cnfe =>
               emit (EPrint (lit "The chant was not found: " ++ cnfe))
           | _ => emit (EPrint (lit "An error occurred: " ++ exn_msg e))
           end)
  end.

(** ** Vocabulary of the properties *)

(** [w] occurs in [s] as a substring. *)
Definition occurs_in (w s : str) : Prop := ∃ a b, s = a ++ w ++ b.

Definition sumZ (l : list Z) : Z := foldr Z.add 0 l.

Section Vocabulary.

Variable self : Virgilio.
Variable disk : Disk.

(** The raw lines of chant [n], when its file can be read. *)
Definition chant (n : Z) : option (list str) :=
  file_lines disk (canto_path self (IInt n)).

(** The number of verses chant [n] contributes to an aggregate: those of
    its file, none when the file cannot be read. *)
Definition counted (n : Z) : Z :=
  match chant n with
  | Some lines => len lines
  | None => 0
  end.

(** The summed length of the stripped verses chant [n] contributes. *)
Definition counted_len (n : Z) : Z :=
  match chant n with
  | Some lines => sum_len (List.map strip lines)
  | None => 0
  end.

(** The number of characters of the stripped verses of chant [n], none
    when the file cannot be read. *)
Definition verse_chars (n : Z) : Z :=
  match chant n with
  | Some lines => sumZ (List.map len (List.map strip lines))
  | None => 0
  end.

(** What one turn of an aggregate loop does to the world: it opens the
    chant, and prints one line when the chant cannot be read. *)
Definition turn (label : str) (n : Z) : list event :=
  EOpen (canto_path self (IInt n)) ReadMode ::
  match chant n with
  | Some _ => []
  | None =>
      [EPrint (lit "Error processing " ++ label ++ lit " " ++ of_int n
               ++ lit ": Error reading chant " ++ of_int n
               ++ lit ": error while opening " ++ canto_path self (IInt n))]
  end.

(** Every single-chant operation stops with [e] and without any effect;
    the word arguments are well typed. *)
Definition all_reject (canto_number : value) (e : exn) : Prop :=
  (∀ strip_lines num_lines,
      read_canto_lines self disk canto_number strip_lines num_lines = raise e)
  ∧ count_verses self disk canto_number = raise e
  ∧ count_tercets self disk canto_number = raise e
  ∧ (∀ word, count_word self disk canto_number (VStr word) = raise e)
  ∧ (∀ word, get_verse_with_word self disk canto_number (VStr word) = raise e)
  ∧ (∀ word, get_verses_with_word self disk canto_number (VStr word) = raise e)
  ∧ get_longest_verse self disk canto_number = raise e
  ∧ (∀ words,
      count_words self disk canto_number (VList (List.map VStr words)) = raise e).

End Vocabulary.

(** The lines [read_canto_lines] returns for the raw [lines] of a file. *)
Definition shaped (strip_lines : bool) (num_lines : option Z)
    (lines : list str) : list str :=
  let lines := if strip_lines then List.map strip lines else lines in
  match num_lines with
  | Some k => slice_to lines k
  | None => lines
  end.

(** One turn of the loop of [get_longest_canto] on the dictionary [r]. *)
Definition better (self : Virgilio) (disk : Disk) (r : longest) (n : Z) : longest :=
  match chant self disk n with
  | Some lines =>
      if canto_len r <? len lines
      then {| canto_number := Some n; canto_len := len lines |}
      else r
  | None => r
  end.

(** [line.strip()] applied to what [read_canto_lines] returns. *)
Definition stripped_result (r : lines_or_str) : lines_or_str :=
  match r with
  | Lines lines => Lines (List.map strip lines)
  | Message text => Message text
  end.

(** The stripped verses chant [n] contributes to [get_hell_verses]. *)
Definition chant_verses (self : Virgilio) (disk : Disk) (n : Z) : list str :=
  match chant self disk n with
  | Some lines => List.map strip lines
  | None => []
  end.

(** Only whitespace. *)
Definition blank (s : str) : Prop := forallb isspace s = true.

(** The message of the exception a single-chant operation raises when the
    file of chant [n] cannot be read. *)
Definition read_error (self : Virgilio) (n : Z) : exn :=
  Exception (lit "Error reading chant " ++ of_int n ++ lit ": "
             ++ lit "error while opening " ++ canto_path self (IInt n)).

(** A trace that touches the outside world at most by opening, for
    reading, the file of the chant number given. *)
Definition at_most_one_read (self : Virgilio) (canto_number : value)
    (t : list event) : Prop :=
  t = []
  ∨ ∃ i, as_int canto_number = Some i ∧ 1 <= int_val i <= 34
         ∧ t = [EOpen (canto_path self i) ReadMode].

(** ** Sample worlds *)

Definition nl : str := [10%N].

Definition inferno : Virgilio := {| directory := lit "chants" |}.

(** A disk that holds the listed files and nothing else. *)
Definition disk_of (files : list (str * list str)) : Disk :=
  {| isdir := fun d => eqb d (lit "chants");
     file_lines := fun p => snd <$> List.find (fun f => eqb (fst f) p) files;
     report_failure := None |}.

(** The chants 1..34 of [inferno], chant [n] holding [lines n] when it is
    there at all. *)
Definition corpus (lines : Z → option (list str)) : Disk :=
  disk_of (omap (fun n => pair (canto_path inferno (IInt n)) <$> lines n)
                (range 1 35)).

Definition opening : list str :=
  [lit "Nel mezzo del cammin" ++ nl; lit "di nostra vita" ++ nl;
   lit "mi ritrovai" ++ nl].

(** Only chant 1 is on the disk. *)
Definition first_chant_only : Disk :=
  corpus (fun n => if n =? 1 then Some opening else None).

(** Every chant is on the disk; chant [n] has [n mod 4] copies of a verse. *)
Definition full_corpus : Disk :=
  corpus (fun n => Some (replicate (Z.to_nat (n mod 4)) (lit "  e quindi uscimmo " ++ nl))).

(** Chant 7 is missing, the others are as in [full_corpus]. *)
Definition corpus_without_7 : Disk :=
  corpus (fun n => if n =? 7 then None
                   else Some (replicate (Z.to_nat (n mod 4))
                                        (lit "  e quindi uscimmo " ++ nl))).

(** Chant 7 is missing and the other 33 files are empty. *)
Definition blank_corpus_without_7 : Disk :=
  corpus (fun n => if n =? 7 then None else Some []).

(** No chant is on the disk. *)
Definition empty_disk : Disk := disk_of [].

(** Chant 1 is on the disk, but the report cannot be written. *)
Definition unwritable_report : Disk :=
  {| isdir := isdir first_chant_only;
     file_lines := file_lines first_chant_only;
     report_failure :=
       Some (lit "[Errno 13] Permission denied: 'word_counts.json'") |}.

(** ** The claims that do not hold as worded *)

(** [get_longest_canto] as worded: with exactly one unreadable chant, the
    answer names a readable chant of greatest verse count, the lowest such
    number. *)
Definition longest_canto_as_worded (self : Virgilio) (disk : Disk) : Prop :=
  ∀ k, 1 <= k <= 34 →
    (∀ n, 1 <= n <= 34 → (chant self disk n = None ↔ n = k)) →
    ∃ best,
      1 <= best <= 34 ∧ best ≠ k
      ∧ result (get_longest_canto self disk)
        = Return {| canto_number := Some best; canto_len := counted self disk best |}
      ∧ (∀ n, 1 <= n <= 34 → counted self disk n <= counted self disk best)
      ∧ (∀ n, 1 <= n < best → counted self disk n < counted self disk best).

(** A negative limit as worded: the call succeeds and leaves out the last
    min(|k|, v) verses, and what it returns is not a prefix of the verse
    list. *)
Definition negative_limit_as_worded (self : Virgilio) (disk : Disk) : Prop :=
  ∀ n k (strip_lines : bool) (lines : list str),
    1 <= n <= 34 → chant self disk n = Some lines → k < 0 →
    let verses := if strip_lines then List.map strip lines else lines in
    ∃ kept dropped,
      read_canto_lines self disk (VInt n) strip_lines (Some k) =
        ([EOpen (canto_path self (IInt n)) ReadMode], Return (Lines kept))
      ∧ verses = kept ++ dropped
      ∧ len dropped = Z.min (Z.abs k) (len verses)
      ∧ ¬ kept `prefix_of` verses.

(** Booleans as worded: [True] is read as chant 1, [False] is out of range. *)
Definition booleans_as_worded (self : Virgilio) (disk : Disk) : Prop :=
  (∀ strip_lines num_lines,
      read_canto_lines self disk (VBool true) strip_lines num_lines
      = read_canto_lines self disk (VInt 1) strip_lines num_lines)
  ∧ (∀ strip_lines num_lines,
      read_canto_lines self disk (VBool false) strip_lines num_lines
      = raise (CantoNotFoundError (lit "canto_number must be between 1 and 34"))).

(** ** Basic facts about the effect monad *)

Lemma bind_ret_l {A B} (a : A) (f : A → io B) : bind (ret a) f = f a.
Proof. unfold bind, ret. destruct (f a). reflexivity. Qed.

Lemma bind_raise_l {A B} (e : exn) (f : A → io B) : bind (raise e) f = raise e.
Proof. reflexivity. Qed.

Lemma bind_returns {A B} (m : io A) (f : A → io B) t a :
  m = (t, Return a) → bind m f = (t ++ trace (f a), result (f a)).
Proof. intros ->. unfold bind. destruct (f a). reflexivity. Qed.

(** A loop whose body always returns, with a trace that does not depend on
    the accumulator, is a fold; its trace is the turns in order. *)
Lemma for_each_total {A St} (xs : list A) (body : St → A → io St)
    (step : St → A → St) (tr : A → list event) (acc : St) :
  (∀ acc x, x ∈ xs → body acc x = (tr x, Return (step acc x))) →
  for_each xs body acc = (flat_map tr xs, Return (foldl step acc xs)).
Proof.
  revert acc. induction xs as [|x xs IH]; intros acc Hbody; [reflexivity|].
  simpl. rewrite (bind_returns _ _ (tr x) (step acc x)).
  - rewrite IH; [reflexivity|]. intros acc' y Hy. apply Hbody. by right.
  - apply Hbody. by left.
Qed.

(** ** Division at sample operands *)

(** 1 / 3 is 0x1.5555555555555p-2. *)
Example one_third :
  nearest_double 1 3 = Some (SpecFloat.S754_finite false 6004799503160661 (-54)).
Proof. reflexivity. Qed.

(** A quotient half way between two doubles goes to the even one:
    (2^53 + 1) / 1 is 2^53 and (2^53 + 3) / 1 is 2^53 + 4. *)
Example ties_to_even :
  nearest_double (2 ^ 53 + 1) 1
  = Some (SpecFloat.S754_finite false (2 ^ 52) 1)
  ∧ nearest_double (2 ^ 53 + 3) 1
    = Some (SpecFloat.S754_finite false (2 ^ 52 + 2) 1).
Proof. split; reflexivity. Qed.

(** 0 / -5 is -0.0, and 2^1024 / 1 has no double. *)
Example zero_and_overflow :
  nearest_double 0 (-5) = Some (SpecFloat.S754_zero true)
  ∧ nearest_double (2 ^ 1024) 1 = None
  ∧ truediv (2 ^ 1024) 1
    = raise (OverflowError (lit "integer division result too large for a float"))
  ∧ truediv 1 0 = raise (ZeroDivisionError (lit "division by zero")).
Proof. repeat split; reflexivity. Qed.

(** ** The reading primitive *)

Section Reading.

Variable self : Virgilio.
Variable disk : Disk.

Lemma read_canto_lines_in_range (i : pyint) strip_lines num_lines :
  1 <= int_val i <= 34 →
  ∀ canto_number, as_int canto_number = Some i →
  read_canto_lines self disk canto_number strip_lines num_lines =
    ([EOpen (canto_path self i) ReadMode],
     Return match file_lines disk (canto_path self i) with
            | Some lines => Lines (shaped strip_lines num_lines lines)
            | None => Message (lit "error while opening " ++ canto_path self i)
            end).
Proof.
  intros Hrange canto_number Hint. unfold read_canto_lines. rewrite Hint.
  replace ((1 <=? int_val i) && (int_val i <=? 34)) with true
    by (symmetry; apply andb_true_intro; split; apply Z.leb_le; lia).
  cbn [negb]. unfold shaped.
  destruct (file_lines disk (canto_path self i)); reflexivity.
Qed.

Lemma read_canto_lines_readable n strip_lines num_lines lines :
  1 <= n <= 34 → chant self disk n = Some lines →
  read_canto_lines self disk (VInt n) strip_lines num_lines =
    ([EOpen (canto_path self (IInt n)) ReadMode],
     Return (Lines (shaped strip_lines num_lines lines))).
Proof.
  intros Hn Hfile.
  rewrite (read_canto_lines_in_range (IInt n)) by (cbn; done).
  unfold chant in Hfile. rewrite Hfile. reflexivity.
Qed.

Lemma read_canto_lines_not_int canto_number strip_lines num_lines :
  as_int canto_number = None →
  read_canto_lines self disk canto_number strip_lines num_lines =
    raise (TypeError (lit "canto_number must be an integer")).
Proof. intros Hint. unfold read_canto_lines. rewrite Hint. reflexivity. Qed.

Lemma read_canto_lines_out_of_range canto_number i strip_lines num_lines :
  as_int canto_number = Some i → ¬ (1 <= int_val i <= 34) →
  read_canto_lines self disk canto_number strip_lines num_lines =
    raise (CantoNotFoundError (lit "canto_number must be between 1 and 34")).
Proof.
  intros Hint Hrange. unfold read_canto_lines. rewrite Hint.
  replace ((1 <=? int_val i) && (int_val i <=? 34)) with false; [reflexivity|].
  symmetry. apply andb_false_iff.
  destruct (Z.leb_spec 1 (int_val i)); [right|left; reflexivity].
  apply Z.leb_gt. lia.
Qed.

Lemma count_verses_in_range n :
  1 <= n <= 34 →
  count_verses self disk (VInt n) =
    (EOpen (canto_path self (IInt n)) ReadMode :: [],
     match chant self disk n with
     | Some lines => Return (len lines)
     | None =>
         Raise (Exception (lit "Error reading chant " ++ of_int n ++ lit ": "
                           ++ lit "error while opening "
                           ++ canto_path self (IInt n)))
     end).
Proof.
  intros Hn. unfold count_verses.
  rewrite (read_canto_lines_in_range (IInt n)) by (cbn; done).
  unfold chant. destruct (file_lines disk (canto_path self (IInt n))); reflexivity.
Qed.

End Reading.

(** ** Properties of the single-chant operations *)

Lemma as_str_list_strings (words : list str) :
  as_str_list (VList (List.map VStr words)) = Some words.
Proof.
  unfold as_str_list. induction words as [|w ws IH]; [reflexivity|].
  cbn. cbn in IH. rewrite IH. reflexivity.
Qed.

Lemma len_nonneg {A} (l : list A) : 0 <= len l.
Proof. unfold len. lia. Qed.

(** An ill-typed word or word list is refused first, whatever the chant
    number, and also before any file is opened. *)
Lemma ill_typed_word_rejected self disk canto_number word :
  as_str word = None →
  count_word self disk canto_number word = word_type_error word
  ∧ get_verse_with_word self disk canto_number word = word_type_error word
  ∧ get_verses_with_word self disk canto_number word = word_type_error word
  ∧ trace (@word_type_error Z word) = [].
Proof.
  intros Hword. unfold count_word, get_verse_with_word, get_verses_with_word.
  rewrite Hword. done.
Qed.

(** C2. A chant number that is not an [int] instance makes every
    single-chant operation raise [TypeError], and an [int] instance outside
    1..34 makes each of them raise [CantoNotFoundError]; in both cases the
    trace is empty, so no file has been opened. The other arguments are
    taken well typed. *)
Theorem invalid_chant_number_rejected self disk canto_number :
  (as_int canto_number = None →
   all_reject self disk canto_number
     (TypeError (lit "canto_number must be an integer")))
  ∧ (∀ i, as_int canto_number = Some i → ¬ (1 <= int_val i <= 34) →
     all_reject self disk canto_number
       (CantoNotFoundError (lit "canto_number must be between 1 and 34"))).
Proof.
  split.
  - intros Hint.
    pose proof (read_canto_lines_not_int self disk canto_number) as Hread.
    unfold all_reject, count_tercets, count_verses, count_word,
      get_verse_with_word, get_verses_with_word, get_longest_verse, count_words.
    repeat split; intros; rewrite ?as_str_list_strings; cbn [as_str];
      rewrite Hread by assumption; reflexivity.
  - intros i Hint Hrange.
    pose proof (read_canto_lines_out_of_range self disk canto_number i) as Hread.
    unfold all_reject, count_tercets, count_verses, count_word,
      get_verse_with_word, get_verses_with_word, get_longest_verse, count_words.
    repeat split; intros; rewrite ?as_str_list_strings; cbn [as_str];
      rewrite Hread by assumption; reflexivity.
Qed.

(** C5. For a chant number in 1..34, [count_tercets] is [count_verses]
    floor-divided by 3: it has the same effects, fails exactly when
    [count_verses] fails, and otherwise returns the quotient, leaving a
    remainder of 0, 1 or 2 verses uncounted. *)
Theorem count_tercets_floor self disk n :
  1 <= n <= 34 →
  trace (count_tercets self disk (VInt n)) = trace (count_verses self disk (VInt n))
  ∧ match result (count_verses self disk (VInt n)) with
    | Return num_verses =>
        result (count_tercets self disk (VInt n)) = Return (num_verses / 3)
        ∧ 3 * (num_verses / 3) <= num_verses < 3 * (num_verses / 3) + 3
    | Raise e => result (count_tercets self disk (VInt n)) = Raise e
    end
  ∧ (∀ lines, chant self disk n = Some lines →
       result (count_verses self disk (VInt n)) = Return (len lines)
       ∧ result (count_tercets self disk (VInt n)) = Return (len lines / 3)).
Proof.
  intros Hn. unfold count_tercets. rewrite (count_verses_in_range self disk n Hn).
  destruct (chant self disk n) as [lines|] eqn:Hfile.
  - cbn. split; [reflexivity|]. split.
    + split; [reflexivity|]. split.
      * apply Z.mul_div_le. lia.
      * pose proof (Z.mul_succ_div_gt (len lines) 3). lia.
    + intros lines' [= <-]. split; reflexivity.
  - cbn. split; [reflexivity|]. split; [reflexivity|]. intros; discriminate.
Qed.

(** C10, amended. With a negative [num_lines] = k, a readable chant in
    1..34 is returned without its last min(|k|, v) verses, v being the
    number of verses: the call succeeds, and what it returns is the prefix
    of the verse list of length v - min(|k|, v), the verses left out
    following it. *)
Theorem read_canto_lines_negative_limit self disk n k (strip_lines : bool)
    (lines : list str) :
  1 <= n <= 34 → chant self disk n = Some lines → k < 0 →
  let verses := if strip_lines then List.map strip lines else lines in
  ∃ kept dropped,
    read_canto_lines self disk (VInt n) strip_lines (Some k) =
      ([EOpen (canto_path self (IInt n)) ReadMode], Return (Lines kept))
    ∧ verses = kept ++ dropped
    ∧ len dropped = Z.min (Z.abs k) (len verses)
    ∧ len kept = len verses - Z.min (Z.abs k) (len verses)
    ∧ kept `prefix_of` verses.
Proof.
  intros Hn Hfile Hk verses.
  set (stop := Z.to_nat (Z.max (len verses + k) 0)).
  exists (take stop verses), (drop stop verses).
  rewrite (read_canto_lines_readable self disk n strip_lines (Some k) lines Hn Hfile).
  unfold shaped, slice_to. fold verses.
  replace (k <? 0) with true by (symmetry; apply Z.ltb_lt; done).
  fold stop. split; [reflexivity|]. split; [by rewrite take_drop|].
  split; [|split].
  - unfold len. rewrite length_drop. subst stop. unfold len. lia.
  - unfold len. rewrite length_take. subst stop. unfold len. lia.
  - exists (drop stop verses). by rewrite take_drop.
Qed.

(** *** Substring search *)

Lemma startswith_spec (sub s : str) :
  startswith sub s = true ↔ ∃ b, s = sub ++ b.
Proof.
  revert s. induction sub as [|a sub IH]; intros s; cbn.
  - split; [intros _; by exists s | done].
  - destruct s as [|c s]; [split; [done | by intros [b [=]]]|].
    rewrite andb_true_iff, IH, N.eqb_eq. split.
    + intros [-> [b ->]]. by exists b.
    + intros [b [= -> ->]]. eauto.
Qed.

Lemma contains_spec (sub s : str) :
  contains sub s = true ↔ occurs_in sub s.
Proof.
  unfold occurs_in. induction s as [|c s IH].
  - cbn. rewrite orb_false_r, startswith_spec. split.
    + intros [b ->]. by exists [], b.
    + intros (a & b & Heq). symmetry in Heq.
      apply app_eq_nil in Heq as [-> Heq]. apply app_eq_nil in Heq as [-> ->].
      by exists [].
  - change (contains sub (c :: s))
      with (startswith sub (c :: s) || contains sub s).
    rewrite orb_true_iff, IH, startswith_spec. split.
    + intros [[b ->] | (a & b & ->)]; [by exists [], b | by exists (c :: a), b].
    + intros ([|c' a] & b & Heq); [left; by exists b|].
      injection Heq as -> ->. right. by exists a, b.
Qed.

Lemma or_None_spec {A} (xs : list A) :
  (or_None xs = None ↔ xs = [])
  ∧ (∀ ys, or_None xs = Some ys → ys = xs ∧ ys ≠ []).
Proof.
  destruct xs as [|x xs]; cbn; split; try done.
  intros ys [= <-]. done.
Qed.

(** C3. For a readable chant in 1..34, [get_verses_with_word] returns the
    stripped verses that contain the word, in file order and as often as
    they occur: a sublist of what [read_canto_lines] gives with
    [strip_lines=True]. It returns [None], never an empty list, exactly
    when no verse contains the word. *)
Theorem get_verses_with_word_spec self disk n (w : str) (lines : list str) :
  1 <= n <= 34 → chant self disk n = Some lines →
  ∃ verses found,
    result (read_canto_lines self disk (VInt n) true None) = Return (Lines verses)
    ∧ result (get_verses_with_word self disk (VInt n) (VStr w)) = Return found
    ∧ (found = None ↔ ∀ v, v ∈ verses → ¬ occurs_in w v)
    ∧ (∀ vs, found = Some vs →
         vs ≠ []
         ∧ vs = List.filter (contains w) verses
         ∧ vs `sublist_of` verses
         ∧ ∀ v, v ∈ vs ↔ v ∈ verses ∧ occurs_in w v).
Proof.
  intros Hn Hfile.
  exists (List.map strip lines),
         (or_None (List.filter (contains w) (List.map strip lines))).
  unfold get_verses_with_word. cbn [as_str].
  rewrite (read_canto_lines_readable self disk n true None lines Hn Hfile).
  cbn [shaped]. set (verses := List.map strip lines).
  assert (Hmem : ∀ v, v ∈ List.filter (contains w) verses
                      ↔ v ∈ verses ∧ occurs_in w v).
  { intros v. rewrite !list_elem_of_In, filter_In, contains_spec. done. }
  destruct (or_None_spec (List.filter (contains w) verses)) as [Hnone Hsome].
  split; [reflexivity|]. split; [reflexivity|]. split.
  - rewrite Hnone. split.
    + intros Hnil v Hv Hocc.
      assert (v ∈ List.filter (contains w) verses) as Hin by (apply Hmem; done).
      rewrite Hnil in Hin. by apply elem_of_nil in Hin.
    + intros Hno. destruct (List.filter (contains w) verses) as [|v vs]; [done|].
      destruct (proj1 (Hmem v)) as [Hv Hocc]; [by left|]. by destruct (Hno v Hv).
  - intros vs Hvs. apply Hsome in Hvs as [-> Hne].
    split; [done|]. split; [done|]. split; [|done].
    clear. induction verses as [|v verses IH]; cbn; [constructor|].
    destruct (contains w v); by constructor.
Qed.

(** *** The longest verse *)

(** The running maximum of [max]: it sits at some position of the scanned
    list, nothing is longer, and everything before it is strictly shorter. *)
Lemma foldl_longer_first (x : str) (l : list str) :
  ∃ i, (x :: l) !! i = Some (foldl longer x l)
       ∧ (∀ u, u ∈ x :: l → len u <= len (foldl longer x l))
       ∧ (∀ j u, (j < i)%nat → (x :: l) !! j = Some u →
                 len u < len (foldl longer x l)).
Proof.
  induction l as [|y l IH] using rev_ind.
  - exists 0%nat. cbn. split; [done|]. split.
    + intros u ->%list_elem_of_singleton. lia.
    + intros j u Hj. lia.
  - destruct IH as (i & Hi & Hmax & Hfirst).
    rewrite foldl_app. cbn [foldl]. set (best := foldl longer x l) in *.
    assert (Hlt : (i < length (x :: l))%nat) by (eapply lookup_lt_Some; done).
    unfold longer. destruct (Z.ltb_spec (len best) (len y)) as [Hy|Hy].
    + exists (length (x :: l)). rewrite app_comm_cons. split; [|split].
      * rewrite lookup_app_r by lia. by rewrite Nat.sub_diag.
      * intros u [Hu | ->%list_elem_of_singleton]%elem_of_app; [|lia].
        specialize (Hmax u Hu). lia.
      * intros j u Hj Hu. rewrite lookup_app_l in Hu by done.
        assert (len u <= len best); [|lia].
        apply Hmax. eapply list_elem_of_lookup_2. done.
    + exists i. rewrite app_comm_cons. split; [|split].
      * by rewrite lookup_app_l.
      * intros u [Hu | ->%list_elem_of_singleton]%elem_of_app; [by apply Hmax | lia].
      * intros j u Hj Hu. rewrite lookup_app_l in Hu by (eapply Nat.lt_trans; [exact Hj | exact Hlt]).
        by eapply Hfirst.
Qed.

(** C4. For a readable chant in 1..34, [get_longest_verse] returns [None]
    when the chant has no verse, and otherwise a stripped verse that is at
    least as long as every stripped verse of the chant and strictly longer
    than all those before it in file order, so that among verses of maximal
    length the first is returned. *)
Theorem get_longest_verse_spec self disk n (lines : list str) :
  1 <= n <= 34 → chant self disk n = Some lines →
  ∃ verses found,
    verses = List.map strip lines
    ∧ result (read_canto_lines self disk (VInt n) true None) = Return (Lines verses)
    ∧ result (get_longest_verse self disk (VInt n)) = Return found
    ∧ (found = None ↔ lines = [])
    ∧ (∀ v, found = Some v →
         ∃ i, verses !! i = Some v
              ∧ (∀ u, u ∈ verses → len u <= len v)
              ∧ (∀ j u, (j < i)%nat → verses !! j = Some u → len u < len v)).
Proof.
  intros Hn Hfile.
  exists (List.map strip lines), (max_by_len (List.map strip lines)).
  unfold get_longest_verse.
  rewrite (read_canto_lines_readable self disk n true None lines Hn Hfile).
  cbn [shaped]. split; [reflexivity|]. split; [reflexivity|].
  split; [reflexivity|]. destruct lines as [|line lines]; cbn [List.map max_by_len].
  - split; [done|]. intros v [=].
  - split; [split; discriminate|]. intros v [= <-].
    apply (foldl_longer_first (strip line) (List.map strip lines)).
Qed.

(** ** Properties of the corpus-wide operations *)

Lemma elem_of_range (a b n : Z) : n ∈ range a b ↔ a <= n < b.
Proof.
  unfold range. rewrite list_elem_of_In, in_map_iff. split.
  - intros (i & <- & Hi%in_seq). lia.
  - intros Hn. exists (Z.to_nat (n - a)). rewrite in_seq. lia.
Qed.

Lemma range_snoc (a : Z) (k : nat) :
  range a (a + Z.of_nat (S k)) = range a (a + Z.of_nat k) ++ [a + Z.of_nat k].
Proof.
  unfold range.
  replace (Z.to_nat (a + Z.of_nat (S k) - a)) with (S k) by lia.
  replace (Z.to_nat (a + Z.of_nat k - a)) with k by lia.
  rewrite seq_S, List.map_app. reflexivity.
Qed.

Lemma foldl_add_sumZ {A} (f : A → Z) (xs : list A) (acc : Z) :
  foldl (fun acc x => acc + f x) acc xs = acc + sumZ (List.map f xs).
Proof.
  revert acc. induction xs as [|x xs IH]; intros acc; cbn; [lia|].
  rewrite IH. fold (sumZ (List.map f xs)). lia.
Qed.

Lemma sum_len_sumZ (verses : list str) : sum_len verses = sumZ (List.map len verses).
Proof. unfold sum_len. by rewrite foldl_add_sumZ. Qed.

Lemma sumZ_zero {A} (f : A → Z) (xs : list A) :
  (∀ x, x ∈ xs → f x = 0) → sumZ (List.map f xs) = 0.
Proof.
  induction xs as [|x xs IH]; intros Hf; [done|].
  change (f x + sumZ (List.map f xs) = 0).
  rewrite (Hf x) by left. rewrite IH; [done|]. intros y Hy. apply Hf. by right.
Qed.

Lemma sumZ_ext {A} (f g : A → Z) (xs : list A) :
  (∀ x, f x = g x) → sumZ (List.map f xs) = sumZ (List.map g xs).
Proof.
  intros Hfg. induction xs as [|x xs IH]; [done|].
  cbn [List.map]. change (sumZ (?y :: ?l)) with (y + sumZ l). by rewrite Hfg, IH.
Qed.

Section Aggregates.

Variable self : Virgilio.
Variable disk : Disk.

(** One turn of the loop of [count_hell_verses]. *)
Lemma count_hell_verses_turn (total_verses n : Z) :
  1 <= n <= 34 →
  try_except
    (let* num_verses := count_verses self disk (VInt n) in
     ret (total_verses + num_verses))
    (log_error (lit "Chant") n total_verses)
  = (turn self disk (lit "Chant") n, Return (total_verses + counted self disk n)).
Proof.
  intros Hn. rewrite (count_verses_in_range self disk n Hn).
  unfold turn, counted. destruct (chant self disk n) as [lines|].
  - reflexivity.
  - rewrite Z.add_0_r. reflexivity.
Qed.

(** One turn of the second loop of [get_hell_verse_mean_len]. *)
Lemma mean_len_turn (total_verses_len n : Z) :
  1 <= n <= 34 →
  try_except
    (let* verses := read_canto_lines self disk (VInt n) true None in
     let* verses := checked (VInt n) verses in
     ret (total_verses_len + sum_len verses))
    (log_error (lit "Canto") n total_verses_len)
  = (turn self disk (lit "Canto") n,
     Return (total_verses_len + counted_len self disk n)).
Proof.
  intros Hn. rewrite (read_canto_lines_in_range self disk (IInt n)) by (cbn; done).
  unfold turn, counted_len, chant.
  destruct (file_lines disk (canto_path self (IInt n))) as [lines|].
  - reflexivity.
  - rewrite Z.add_0_r. reflexivity.
Qed.

(** One turn of the loop of [get_longest_canto]. *)
Lemma get_longest_canto_turn (longest_chant : longest) (n : Z) :
  1 <= n <= 34 →
  try_except
    (let* num_verses := count_verses self disk (VInt n) in
     if canto_len longest_chant <? num_verses
     then ret {| canto_number := Some n; canto_len := num_verses |}
     else ret longest_chant)
    (log_error (lit "Canto") n longest_chant)
  = (turn self disk (lit "Canto") n, Return (better self disk longest_chant n)).
Proof.
  intros Hn. rewrite (count_verses_in_range self disk n Hn).
  unfold turn, better. destruct (chant self disk n) as [lines|]; [|reflexivity].
  cbn. destruct (canto_len longest_chant <? len lines); reflexivity.
Qed.

Lemma count_hell_verses_total :
  count_hell_verses self disk =
    (flat_map (turn self disk (lit "Chant")) (range 1 35),
     Return (sumZ (List.map (counted self disk) (range 1 35)))).
Proof.
  unfold count_hell_verses.
  rewrite (for_each_total _ _ (fun acc n => acc + counted self disk n)
             (turn self disk (lit "Chant"))).
  - by rewrite foldl_add_sumZ.
  - intros acc n Hn%elem_of_range. apply count_hell_verses_turn. lia.
Qed.

Lemma get_longest_canto_total :
  get_longest_canto self disk =
    (flat_map (turn self disk (lit "Canto")) (range 1 35),
     Return (foldl (better self disk)
               {| canto_number := None; canto_len := 0 |} (range 1 35))).
Proof.
  unfold get_longest_canto.
  apply (for_each_total _ _ (better self disk) (turn self disk (lit "Canto"))).
  intros acc n Hn%elem_of_range. apply get_longest_canto_turn. lia.
Qed.

(** What the dictionary of [get_longest_canto] holds after the chants
    [a .. a+k-1] have been examined. *)
Lemma better_invariant (a : Z) (k : nat) :
  let r := foldl (better self disk) {| canto_number := None; canto_len := 0 |}
             (range a (a + Z.of_nat k)) in
  (∀ n, a <= n < a + Z.of_nat k → counted self disk n <= canto_len r)
  ∧ match canto_number r with
    | None => canto_len r = 0
    | Some best =>
        a <= best < a + Z.of_nat k
        ∧ 0 < canto_len r
        ∧ canto_len r = counted self disk best
        ∧ ∀ n, a <= n < best → counted self disk n < counted self disk best
    end.
Proof.
  induction k as [|k IH].
  - replace (a + Z.of_nat 0) with a by lia.
    unfold range. rewrite Z.sub_diag. cbn. split; [lia | done].
  - rewrite range_snoc, foldl_app. cbn [foldl].
    cbv zeta in IH.
    set (r := foldl (better self disk) _ (range a (a + Z.of_nat k))) in *.
    destruct IH as [Hmax Hbest]. cbv zeta.
    assert (Hcur : counted self disk (a + Z.of_nat k) = 0
                   ∧ better self disk r (a + Z.of_nat k) = r
                   ∨ canto_len r < counted self disk (a + Z.of_nat k)
                     ∧ better self disk r (a + Z.of_nat k)
                       = {| canto_number := Some (a + Z.of_nat k);
                            canto_len := counted self disk (a + Z.of_nat k) |}
                   ∨ counted self disk (a + Z.of_nat k) <= canto_len r
                     ∧ better self disk r (a + Z.of_nat k) = r).
    { unfold better, counted. destruct (chant self disk (a + Z.of_nat k)) as [lines|].
      - destruct (Z.ltb_spec (canto_len r) (len lines)); [right; left | right; right];
          done.
      - by left. }
    assert (Hlen : 0 <= canto_len r).
    { destruct (canto_number r); lia. }
    destruct Hcur as [[H0 ->] | [[Hlt ->] | [Hle ->]]].
    + split.
      * intros n Hn. destruct (decide (n = a + Z.of_nat k)) as [->|]; [lia|].
        apply Hmax. lia.
      * destruct (canto_number r) as [best|]; [|done].
        destruct Hbest as (? & ? & ? & ?). repeat split; try done; lia.
    + cbn. split.
      * intros n Hn. destruct (decide (n = a + Z.of_nat k)) as [->|]; [lia|].
        assert (counted self disk n <= canto_len r) by (apply Hmax; lia). lia.
      * repeat split; try lia.
        intros n Hn. assert (counted self disk n <= canto_len r) by (apply Hmax; lia).
        lia.
    + split.
      * intros n Hn. destruct (decide (n = a + Z.of_nat k)) as [->|]; [lia|].
        apply Hmax. lia.
      * destruct (canto_number r) as [best|]; [|done].
        destruct Hbest as (? & ? & ? & ?). repeat split; try done; lia.
Qed.

End Aggregates.

(** C6. [count_hell_verses] examines all 34 chants in order, whatever
    fails: it returns the sum, over the chants 1..34, of what
    [count_verses] returns for the chant, a chant whose read fails adding
    nothing and leaving one printed line in the trace. When all 34 chants
    are readable this is the sum of [count_verses] over 1..34. *)
Theorem count_hell_verses_sum self disk :
  count_hell_verses self disk =
    (flat_map (turn self disk (lit "Chant")) (range 1 35),
     Return (sumZ (List.map (counted self disk) (range 1 35))))
  ∧ (∀ n, 1 <= n <= 34 →
       match result (count_verses self disk (VInt n)) with
       | Return num_verses => counted self disk n = num_verses
       | Raise _ => counted self disk n = 0 ∧ chant self disk n = None
       end)
  ∧ ((∀ n, 1 <= n <= 34 → is_Some (chant self disk n)) →
     ∃ counts : Z → Z,
       (∀ n, 1 <= n <= 34 →
          result (count_verses self disk (VInt n)) = Return (counts n))
       ∧ result (count_hell_verses self disk)
         = Return (sumZ (List.map counts (range 1 35)))).
Proof.
  split; [apply count_hell_verses_total|]. split.
  - intros n Hn. rewrite (count_verses_in_range self disk n Hn).
    unfold counted. destruct (chant self disk n); cbn; done.
  - intros Hall. exists (counted self disk). split.
    + intros n Hn. rewrite (count_verses_in_range self disk n Hn).
      unfold counted. by destruct (Hall n Hn) as [lines ->].
    + by rewrite count_hell_verses_total.
Qed.

Lemma verse_chars_counted_len self disk n :
  counted_len self disk n = verse_chars self disk n.
Proof.
  unfold counted_len, verse_chars. destruct (chant self disk n); [|done].
  apply sum_len_sumZ.
Qed.

(** C7. [get_hell_verse_mean_len] never raises a division by zero. It
    returns 0.0 when the total verse count is zero, which is the case when
    no chant file can be read. Otherwise it divides the number of
    characters of the stripped verses of the readable chants by their
    number of verses: the result is the double nearest to that quotient,
    and the only way to fail is for the quotient to be too large for a
    double. *)
Theorem get_hell_verse_mean_len_spec self disk :
  let total_verses := sumZ (List.map (counted self disk) (range 1 35)) in
  let total_chars := sumZ (List.map (verse_chars self disk) (range 1 35)) in
  result (count_hell_verses self disk) = Return total_verses
  ∧ (total_verses = 0 →
     result (get_hell_verse_mean_len self disk) = Return zero_float)
  ∧ (total_verses ≠ 0 →
     result (get_hell_verse_mean_len self disk)
     = match nearest_double total_chars total_verses with
       | Some q => Return q
       | None =>
           Raise (OverflowError
                    (lit "integer division result too large for a float"))
       end)
  ∧ (∀ msg, result (get_hell_verse_mean_len self disk)
            ≠ Raise (ZeroDivisionError msg))
  ∧ (∀ e, result (get_hell_verse_mean_len self disk) = Raise e →
          total_verses ≠ 0 ∧ nearest_double total_chars total_verses = None)
  ∧ ((∀ n, 1 <= n <= 34 → chant self disk n = None) →
     result (get_hell_verse_mean_len self disk) = Return zero_float).
Proof.
  intros total_verses total_chars.
  assert (Hmean : result (get_hell_verse_mean_len self disk) =
                  if total_verses =? 0 then Return zero_float
                  else match nearest_double total_chars total_verses with
                       | Some q => Return q
                       | None =>
                           Raise (OverflowError
                                    (lit "integer division result too large for a float"))
                       end).
  { unfold get_hell_verse_mean_len.
    rewrite (bind_returns _ _ _ _ (count_hell_verses_total self disk)).
    fold total_verses. cbn [result snd].
    destruct (Z.eqb_spec total_verses 0) as [Hz|Hz]; [reflexivity|].
    rewrite (for_each_total _ _ (fun acc n => acc + counted_len self disk n)
               (turn self disk (lit "Canto"))).
    - rewrite foldl_add_sumZ.
      rewrite (sumZ_ext _ _ _ (verse_chars_counted_len self disk)).
      fold total_chars. unfold truediv, bind.
      destruct (Z.eqb_spec total_verses 0); [done|].
      rewrite Z.add_0_l. by destruct (nearest_double total_chars total_verses).
    - intros acc n Hn%elem_of_range. apply mean_len_turn. lia. }
  split; [by rewrite count_hell_verses_total|].
  split; [|split; [|split; [|split]]].
  - intros Hz. rewrite Hmean, Hz. reflexivity.
  - intros Hz. rewrite Hmean. by destruct (Z.eqb_spec total_verses 0).
  - intros msg. rewrite Hmean. destruct (total_verses =? 0); [done|].
    by destruct (nearest_double total_chars total_verses).
  - intros e. rewrite Hmean. destruct (Z.eqb_spec total_verses 0); [done|].
    by destruct (nearest_double total_chars total_verses).
  - intros Hmissing. rewrite Hmean.
    replace total_verses with 0; [reflexivity|]. symmetry. apply sumZ_zero.
    intros n Hn%elem_of_range. unfold counted. rewrite Hmissing; [done|lia].
Qed.

(** C8, amended. With exactly one unreadable chant, [get_longest_canto]
    does not raise: it prints one line for that chant and goes on. If some
    readable chant has a verse, the answer is the lowest-numbered chant
    among those with the greatest verse count, with that count, and it is
    not the unreadable one. If every readable chant is empty, the answer is
    the initial dictionary: number [None], length 0. *)
Theorem get_longest_canto_one_missing self disk k :
  1 <= k <= 34 →
  (∀ n, 1 <= n <= 34 → (chant self disk n = None ↔ n = k)) →
  ∃ r,
    get_longest_canto self disk
    = (flat_map (turn self disk (lit "Canto")) (range 1 35), Return r)
    ∧ ((∀ n, 1 <= n <= 34 → counted self disk n = 0) →
       r = {| canto_number := None; canto_len := 0 |})
    ∧ ((∃ n, 1 <= n <= 34 ∧ 0 < counted self disk n) →
       ∃ best,
         r = {| canto_number := Some best; canto_len := counted self disk best |}
         ∧ 1 <= best <= 34 ∧ best ≠ k
         ∧ (∀ n, 1 <= n <= 34 → counted self disk n <= counted self disk best)
         ∧ (∀ n, 1 <= n < best → counted self disk n < counted self disk best)).
Proof.
  intros Hk Hone. eexists. split; [apply get_longest_canto_total|].
  destruct (better_invariant self disk 1 34) as [Hmax Hbest].
  change (range 1 (1 + Z.of_nat 34)) with (range 1 35) in *.
  destruct (foldl (better self disk) _ (range 1 35)) as [number length_].
  cbn [canto_number canto_len] in *. split.
  - intros Hzero. destruct number as [best|]; [|by rewrite Hbest].
    destruct Hbest as (Hb & Hpos & Heq & _). rewrite Hzero in Heq; lia.
  - intros (n & Hn & Hpos). destruct number as [best|].
    + destruct Hbest as (Hb & Hlen & Heq & Hfirst). exists best.
      rewrite Heq. split; [done|]. split; [lia|]. split; [|split].
      * intros ->. assert (chant self disk k = None) as Hnone by (by apply Hone).
        unfold counted in Heq. rewrite Hnone in Heq. lia.
      * intros m Hm. rewrite <- Heq. apply Hmax. lia.
      * intros m Hm. apply Hfirst. lia.
    + assert (counted self disk n <= length_) by (apply Hmax; lia). lia.
Qed.

(** C9, amended. [True] and [False] pass the [isinstance] check. [False]
    compares as 0 and is refused as out of range before any file is opened.
    [True] compares as 1 and passes the range check, but the file name is
    formatted from the value itself: the file opened is [Canto_True.txt],
    not [Canto_1.txt], and the call returns its lines if it can be read and
    the error message otherwise. *)
Theorem booleans_pass_the_type_check self disk strip_lines num_lines :
  let file_path := path_join (directory self) (lit "Canto_True.txt") in
  read_canto_lines self disk (VBool true) strip_lines num_lines
  = ([EOpen file_path ReadMode],
     Return match file_lines disk file_path with
            | Some lines => Lines (shaped strip_lines num_lines lines)
            | None => Message (lit "error while opening " ++ file_path)
            end)
  ∧ file_path ≠ canto_path self (IInt 1)
  ∧ read_canto_lines self disk (VBool false) strip_lines num_lines
    = raise (CantoNotFoundError (lit "canto_number must be between 1 and 34")).
Proof.
  intros file_path. split; [|split].
  - by rewrite (read_canto_lines_in_range self disk (IBool true)) by (cbn; done).
  - subst file_path. unfold canto_path, path_join.
    destruct (last (directory self)) as [c|]; [destruct (c =? 47)%N|];
      intros Heq; try apply app_inv_head in Heq; vm_compute in Heq; discriminate.
  - apply (read_canto_lines_out_of_range self disk _ (IBool false)); [done|].
    cbn. lia.
Qed.

(** ** Counting words *)

Lemma foldl_insert_lookup (f : str → Z) (words : list str) (d : gmap str Z)
    (w : str) :
  w ∈ words ∨ d !! w = Some (f w) →
  foldl (fun d word => <[word := f word]> d) d words !! w = Some (f w).
Proof.
  revert d. induction words as [|word words IH]; intros d Hw; cbn.
  - destruct Hw as [Hw|Hw]; [by apply elem_of_nil in Hw | done].
  - apply IH. destruct (decide (word = w)) as [->|Hne].
    + right. apply lookup_insert_eq.
    + destruct Hw as [Hw|Hw].
      * apply elem_of_cons in Hw as [->|Hw]; [done | by left].
      * right. by rewrite lookup_insert_ne.
Qed.

Lemma count_word_readable self disk n (word : str) (lines : list str) :
  1 <= n <= 34 → chant self disk n = Some lines →
  count_word self disk (VInt n) (VStr word) =
    ([EOpen (canto_path self (IInt n)) ReadMode],
     Return (count (join lines) word)).
Proof.
  intros Hn Hfile. unfold count_word. cbn [as_str].
  by rewrite (read_canto_lines_readable self disk n false None lines Hn Hfile).
Qed.

(** What [count_words] reports for each requested word: its count in the
    concatenation of the stripped verses. *)
Lemma count_words_readable self disk n (words : list str) (lines : list str) :
  1 <= n <= 34 → chant self disk n = Some lines → report_failure disk = None →
  ∃ word_counts : gmap str Z,
    count_words self disk (VInt n) (VList (List.map VStr words)) =
      ([EOpen (canto_path self (IInt n)) ReadMode;
        EOpen (lit "word_counts.json") WriteMode;
        EDump word_counts],
       Return word_counts)
    ∧ ∀ w, w ∈ words →
        word_counts !! w = Some (count (join (List.map strip lines)) w).
Proof.
  intros Hn Hfile Hreport. eexists. split.
  - unfold count_words. rewrite as_str_list_strings.
    rewrite (read_canto_lines_readable self disk n true None lines Hn Hfile).
    rewrite Hreport. reflexivity.
  - intros w Hw.
    apply (foldl_insert_lookup (count (join (List.map strip lines)))). by left.
Qed.

(** C1, the code at a failing input. Chant 1 holds the three verses
    "Nel mezzo del cammin", "di nostra vita", "mi ritrovai", each ended by a
    newline. [count_word] finds no "vitami" and three newlines in it;
    [count_words] reports one "vitami" and no newline, because it joins the
    stripped verses. *)
Theorem count_words_disagrees_with_count_word :
  result (count_word inferno first_chant_only (VInt 1) (VStr (lit "vitami")))
  = Return 0
  ∧ result (count_word inferno first_chant_only (VInt 1) (VStr nl)) = Return 3
  ∧ ∃ word_counts,
      result (count_words inferno first_chant_only (VInt 1)
                (VList [VStr (lit "vitami"); VStr nl]))
      = Return word_counts
      ∧ word_counts !! lit "vitami" = Some 1
      ∧ word_counts !! nl = Some 0.
Proof.
  assert (Hfile : chant inferno first_chant_only 1 = Some opening) by reflexivity.
  split; [|split].
  - rewrite (count_word_readable _ _ 1 _ opening) by done. reflexivity.
  - rewrite (count_word_readable _ _ 1 _ opening) by done. reflexivity.
  - destruct (count_words_readable inferno first_chant_only 1
                [lit "vitami"; nl] opening) as (word_counts & Hrun & Hcounts);
      [done..|].
    cbn [List.map] in Hrun.
    exists word_counts. split; [by rewrite Hrun|]. split.
    + rewrite Hcounts by (left). reflexivity.
    + rewrite Hcounts by (right; left). reflexivity.
Qed.

(** ** Counterexamples to the claims as worded *)

Lemma all_chants (P : Z → Prop) :
  Forall P (range 1 35) → ∀ n, 1 <= n <= 34 → P n.
Proof.
  intros Hall n Hn. rewrite Forall_forall in Hall. apply Hall.
  apply elem_of_range. lia.
Qed.

(** Settles a property of the chants 1..34 of a sample world one chant at
    a time. *)
Ltac each_chant tac :=
  apply all_chants; vm_compute range;
  repeat (constructor; [tac|]); constructor.

(** C8 as worded fails: chant 7 is missing and the other 33 files are
    empty. No count exceeds the initial 0, so no chant is named. *)
Lemma longest_canto_of_blank_chants :
  result (get_longest_canto inferno blank_corpus_without_7)
  = Return {| canto_number := None; canto_len := 0 |}
  ∧ ¬ longest_canto_as_worded inferno blank_corpus_without_7.
Proof.
  assert (Hrun : result (get_longest_canto inferno blank_corpus_without_7)
                 = Return {| canto_number := None; canto_len := 0 |})
    by (vm_compute; reflexivity).
  split; [done|]. intros Hworded.
  destruct (Hworded 7) as (best & _ & _ & Hbest & _); [lia| |].
  - each_chant ltac:(vm_compute; split; intros; (discriminate || reflexivity)).
  - rewrite Hrun in Hbest. discriminate.
Qed.

(** C10 as worded fails: chant 1 has three verses and the limit is -1.
    The call returns the first two verses, which are a prefix of the
    three. *)
Lemma negative_limit_gives_a_prefix :
  read_canto_lines inferno first_chant_only (VInt 1) false (Some (-1))
  = ([EOpen (canto_path inferno (IInt 1)) ReadMode],
     Return (Lines [lit "Nel mezzo del cammin" ++ nl; lit "di nostra vita" ++ nl]))
  ∧ ¬ negative_limit_as_worded inferno first_chant_only.
Proof.
  split; [reflexivity|]. intros Hworded.
  destruct (Hworded 1 (-1) false opening)
    as (kept & dropped & _ & Hsplit & _ & Hnot); [lia | reflexivity | lia |].
  apply Hnot. by exists dropped.
Qed.

(** C9 as worded fails: only [Canto_1.txt] is on the disk. With [True]
    the call opens [Canto_True.txt] and returns the error message, with 1
    it returns the three verses. *)
Lemma true_does_not_read_chant_1 :
  ¬ booleans_as_worded inferno first_chant_only.
Proof.
  intros [Htrue _]. specialize (Htrue false None).
  vm_compute in Htrue. discriminate.
Qed.

(** ** The properties at sample worlds *)

Lemma invalid_chant_number_rejected_witness :
  all_reject inferno first_chant_only (VStr (lit "1"))
    (TypeError (lit "canto_number must be an integer"))
  ∧ all_reject inferno first_chant_only (VInt 35)
      (CantoNotFoundError (lit "canto_number must be between 1 and 34")).
Proof.
  split.
  - apply (proj1 (invalid_chant_number_rejected inferno first_chant_only
                    (VStr (lit "1")))).
    reflexivity.
  - apply (proj2 (invalid_chant_number_rejected inferno first_chant_only (VInt 35))
             (IInt 35)); [reflexivity | cbn; lia].
Defined.

Lemma get_verses_with_word_spec_witness :
  1 <= 1 <= 34
  ∧ chant inferno first_chant_only 1 = Some opening
  ∧ ∃ verses found,
      result (read_canto_lines inferno first_chant_only (VInt 1) true None)
      = Return (Lines verses)
      ∧ result (get_verses_with_word inferno first_chant_only (VInt 1)
                  (VStr (lit "mi")))
        = Return found
      ∧ (found = None ↔ ∀ v, v ∈ verses → ¬ occurs_in (lit "mi") v)
      ∧ (∀ vs, found = Some vs →
           vs ≠ []
           ∧ vs = List.filter (contains (lit "mi")) verses
           ∧ vs `sublist_of` verses
           ∧ ∀ v, v ∈ vs ↔ v ∈ verses ∧ occurs_in (lit "mi") v).
Proof.
  split; [lia|]. split; [reflexivity|].
  apply (get_verses_with_word_spec inferno first_chant_only 1 (lit "mi") opening);
    [lia | reflexivity].
Defined.

Lemma get_longest_verse_spec_witness :
  1 <= 1 <= 34
  ∧ chant inferno first_chant_only 1 = Some opening
  ∧ ∃ verses found,
      verses = List.map strip opening
      ∧ result (read_canto_lines inferno first_chant_only (VInt 1) true None)
        = Return (Lines verses)
      ∧ result (get_longest_verse inferno first_chant_only (VInt 1)) = Return found
      ∧ (found = None ↔ opening = [])
      ∧ (∀ v, found = Some v →
           ∃ i, verses !! i = Some v
                ∧ (∀ u, u ∈ verses → len u <= len v)
                ∧ (∀ j u, (j < i)%nat → verses !! j = Some u → len u < len v)).
Proof.
  split; [lia|]. split; [reflexivity|].
  apply (get_longest_verse_spec inferno first_chant_only 1 opening);
    [lia | reflexivity].
Defined.

Lemma count_tercets_floor_witness :
  1 <= 1 <= 34
  ∧ result (count_verses inferno first_chant_only (VInt 1)) = Return 3
  ∧ result (count_tercets inferno first_chant_only (VInt 1)) = Return 1.
Proof.
  split; [lia|].
  apply (proj2 (proj2 (count_tercets_floor inferno first_chant_only 1
                         ltac:(lia))) opening).
  reflexivity.
Defined.

Lemma read_canto_lines_negative_limit_witness :
  1 <= 1 <= 34
  ∧ chant inferno first_chant_only 1 = Some opening
  ∧ -2 < 0
  ∧ ∃ kept dropped,
      read_canto_lines inferno first_chant_only (VInt 1) false (Some (-2)) =
        ([EOpen (canto_path inferno (IInt 1)) ReadMode], Return (Lines kept))
      ∧ opening = kept ++ dropped
      ∧ len dropped = Z.min (Z.abs (-2)) (len opening)
      ∧ len kept = len opening - Z.min (Z.abs (-2)) (len opening)
      ∧ kept `prefix_of` opening.
Proof.
  split; [lia|]. split; [reflexivity|]. split; [lia|].
  apply (read_canto_lines_negative_limit inferno first_chant_only 1 (-2) false
           opening); [lia | reflexivity | lia].
Defined.

Lemma count_hell_verses_sum_witness :
  (∀ n, 1 <= n <= 34 → is_Some (chant inferno full_corpus n))
  ∧ ∃ counts : Z → Z,
      (∀ n, 1 <= n <= 34 →
         result (count_verses inferno full_corpus (VInt n)) = Return (counts n))
      ∧ result (count_hell_verses inferno full_corpus)
        = Return (sumZ (List.map counts (range 1 35))).
Proof.
  assert (Hall : ∀ n, 1 <= n <= 34 → is_Some (chant inferno full_corpus n)).
  { each_chant ltac:(vm_compute; eexists; reflexivity). }
  split; [exact Hall|].
  apply (proj2 (proj2 (count_hell_verses_sum inferno full_corpus))). exact Hall.
Defined.

Lemma get_hell_verse_mean_len_spec_witness :
  (∀ n, 1 <= n <= 34 → chant inferno empty_disk n = None)
  ∧ sumZ (List.map (counted inferno empty_disk) (range 1 35)) = 0
  ∧ result (get_hell_verse_mean_len inferno empty_disk) = Return zero_float
  ∧ sumZ (List.map (counted inferno full_corpus) (range 1 35)) = 51
  ∧ sumZ (List.map (verse_chars inferno full_corpus) (range 1 35)) = 816
  ∧ result (get_hell_verse_mean_len inferno full_corpus)
    = Return (SpecFloat.S754_finite false 4503599627370496 (-48)).
Proof.
  destruct (get_hell_verse_mean_len_spec inferno empty_disk)
    as (_ & Hzero & _ & _ & _ & Hmissing).
  destruct (get_hell_verse_mean_len_spec inferno full_corpus)
    as (_ & _ & Hmean & _ & _ & _).
  assert (Hempty : sumZ (List.map (counted inferno empty_disk) (range 1 35)) = 0)
    by (vm_compute; reflexivity).
  assert (Hverses : sumZ (List.map (counted inferno full_corpus) (range 1 35)) = 51)
    by (vm_compute; reflexivity).
  assert (Hchars : sumZ (List.map (verse_chars inferno full_corpus) (range 1 35))
                   = 816)
    by (vm_compute; reflexivity).
  split; [intros n Hn; reflexivity|]. split; [exact Hempty|].
  split; [exact (Hzero Hempty)|]. split; [exact Hverses|]. split; [exact Hchars|].
  rewrite Hmean by (rewrite Hverses; lia).
  rewrite Hverses, Hchars. vm_compute. reflexivity.
Defined.

Lemma get_longest_canto_one_missing_witness :
  1 <= 7 <= 34
  ∧ (∀ n, 1 <= n <= 34 → (chant inferno corpus_without_7 n = None ↔ n = 7))
  ∧ ∃ r,
      get_longest_canto inferno corpus_without_7
      = (flat_map (turn inferno corpus_without_7 (lit "Canto")) (range 1 35),
         Return r)
      ∧ ((∀ n, 1 <= n <= 34 → counted inferno corpus_without_7 n = 0) →
         r = {| canto_number := None; canto_len := 0 |})
      ∧ ((∃ n, 1 <= n <= 34 ∧ 0 < counted inferno corpus_without_7 n) →
         ∃ best,
           r = {| canto_number := Some best;
                  canto_len := counted inferno corpus_without_7 best |}
           ∧ 1 <= best <= 34 ∧ best ≠ 7
           ∧ (∀ n, 1 <= n <= 34 →
                counted inferno corpus_without_7 n
                <= counted inferno corpus_without_7 best)
           ∧ (∀ n, 1 <= n < best →
                counted inferno corpus_without_7 n
                < counted inferno corpus_without_7 best)).
Proof.
  assert (Hone : ∀ n, 1 <= n <= 34 →
                      (chant inferno corpus_without_7 n = None ↔ n = 7)).
  { each_chant ltac:(vm_compute; split; intros; (discriminate || reflexivity)). }
  split; [lia|]. split; [exact Hone|].
  apply (get_longest_canto_one_missing inferno corpus_without_7 7); [lia | exact Hone].
Defined.

(** * Further properties of the query layer *)

(** ** Stripping *)

Lemma lstrip_spec (s : str) :
  ∃ a, s = a ++ lstrip s ∧ blank a
       ∧ ∀ c, head (lstrip s) = Some c → isspace c = false.
Proof.
  unfold blank. induction s as [|c s (a & Hs & Ha & Hhead)].
  - exists []. by repeat split.
  - cbn [lstrip]. destruct (isspace c) eqn:Hc.
    + exists (c :: a). cbn. rewrite Hc, Ha. split; [by f_equal|done].
    + exists []. repeat split. intros c' [= <-]. done.
Qed.

Lemma blank_rev (a : str) : blank a → blank (rev a).
Proof.
  unfold blank. rewrite !forallb_forall. intros Ha c Hc%in_rev. by apply Ha.
Qed.

Lemma head_rev_last {A} (l : list A) : head (rev l) = last l.
Proof.
  induction l as [|x l IH] using rev_ind; [done|].
  by rewrite rev_unit, last_snoc.
Qed.

Lemma rstrip_spec (s : str) :
  ∃ b, s = rstrip s ++ b ∧ blank b
       ∧ ∀ c, last (rstrip s) = Some c → isspace c = false.
Proof.
  unfold rstrip. destruct (lstrip_spec (rev s)) as (a & Hs & Ha & Hhead).
  exists (rev a). split; [|split].
  - rewrite <- rev_app_distr, <- Hs. by rewrite rev_involutive.
  - by apply blank_rev.
  - intros c Hc. apply Hhead. by rewrite <- (rev_involutive (lstrip (rev s))), head_rev_last.
Qed.

Lemma lstrip_first_kept (s : str) c :
  head s = Some c → isspace c = false → lstrip s = s.
Proof. destruct s as [|c' s]; [done|]. intros [= ->] Hc. cbn. by rewrite Hc. Qed.

(** What [strip] does to a string: it removes a run of whitespace at each
    end, and what is left neither begins nor ends with whitespace. *)
Lemma strip_spec (s : str) :
  ∃ a b, s = a ++ strip s ++ b ∧ blank a ∧ blank b
         ∧ (∀ c, head (strip s) = Some c → isspace c = false)
         ∧ (∀ c, last (strip s) = Some c → isspace c = false).
Proof.
  unfold strip. destruct (lstrip_spec s) as (a & Hs & Ha & Hhead).
  destruct (rstrip_spec (lstrip s)) as (b & Hb & Hblank & Hlast).
  exists a, b. split; [by rewrite <- Hb|]. split; [done|]. split; [done|].
  split; [|done]. intros c Hc. apply Hhead.
  rewrite Hb. destruct (rstrip (lstrip s)); [done|]. exact Hc.
Qed.

Lemma rstrip_last_kept (s : str) :
  (∀ c, last s = Some c → isspace c = false) → rstrip s = s.
Proof.
  intros Hlast. unfold rstrip. destruct (last s) as [c|] eqn:Hc.
  - rewrite (lstrip_first_kept (rev s) c).
    + apply rev_involutive.
    + by rewrite head_rev_last.
    + by apply Hlast.
  - apply last_None in Hc as ->. done.
Qed.

Lemma strip_idempotent (s : str) : strip (strip s) = strip s.
Proof.
  destruct (strip_spec s) as (a & b & _ & _ & _ & Hhead & Hlast).
  unfold strip at 1.
  destruct (head (strip s)) as [c|] eqn:Hc.
  - rewrite (lstrip_first_kept (strip s) c) by auto. by apply rstrip_last_kept.
  - apply head_None in Hc. rewrite Hc. done.
Qed.

Lemma elem_of_slice_to {A} (l : list A) (k : Z) x : x ∈ slice_to l k → x ∈ l.
Proof.
  unfold slice_to. intros Hx.
  rewrite <- (take_drop (Z.to_nat (if k <? 0 then Z.max (len l + k) 0
                                   else Z.min k (len l))) l).
  apply elem_of_app. by left.
Qed.

Lemma slice_to_map {A B} (f : A → B) (l : list A) (k : Z) :
  slice_to (List.map f l) k = List.map f (slice_to l k).
Proof.
  unfold slice_to, len. rewrite List.length_map. apply firstn_map.
Qed.

Lemma shaped_strip (num_lines : option Z) (lines : list str) :
  shaped true num_lines lines = List.map strip (shaped false num_lines lines).
Proof.
  unfold shaped. destruct num_lines as [k|]; [apply slice_to_map | done].
Qed.

(** X1. Every verse [read_canto_lines] returns with [strip_lines=True]
    comes from a raw line of the file by removing whitespace at both ends,
    and neither begins nor ends with a whitespace character: in particular
    it never carries the line terminator, and stripping it again changes
    nothing. This holds with and without a limit. *)
Theorem read_stripped_verses self disk n (num_lines : option Z) (lines : list str) :
  1 <= n <= 34 → chant self disk n = Some lines →
  ∃ verses,
    result (read_canto_lines self disk (VInt n) true num_lines)
    = Return (Lines verses)
    ∧ ∀ v, v ∈ verses →
        (∃ raw a b, raw ∈ lines ∧ raw = a ++ v ++ b ∧ blank a ∧ blank b)
        ∧ (∀ c, head v = Some c → isspace c = false)
        ∧ (∀ c, last v = Some c → isspace c = false)
        ∧ strip v = v.
Proof.
  intros Hn Hfile. exists (shaped true num_lines lines).
  rewrite (read_canto_lines_readable self disk n true num_lines lines Hn Hfile).
  split; [reflexivity|]. intros v Hv.
  assert (Hin : v ∈ List.map strip lines).
  { unfold shaped in Hv. destruct num_lines; [by eapply elem_of_slice_to | done]. }
  apply list_elem_of_In, in_map_iff in Hin as (raw & <- & Hraw).
  destruct (strip_spec raw) as (a & b & Hsplit & Ha & Hb & Hhead & Hlast).
  split; [|split; [done|split; [done|apply strip_idempotent]]].
  exists raw, a, b. by rewrite list_elem_of_In.
Qed.

(** X2. Stripping and limiting commute: for any chant number and any limit,
    [read_canto_lines] with [strip_lines=True] has the effects and the
    failure of the call with [strip_lines=False], and when that returns
    lines it returns the same lines, each stripped. So the number of
    verses never depends on [strip_lines]: a blank line stays as an empty
    verse. *)
Theorem strip_commutes_with_limit self disk canto_number (num_lines : option Z) :
  trace (read_canto_lines self disk canto_number true num_lines)
  = trace (read_canto_lines self disk canto_number false num_lines)
  ∧ result (read_canto_lines self disk canto_number true num_lines)
    = match result (read_canto_lines self disk canto_number false num_lines) with
      | Return r => Return (stripped_result r)
      | Raise e => Raise e
      end.
Proof.
  destruct (as_int canto_number) as [i|] eqn:Hint.
  - destruct (decide (1 <= int_val i <= 34)) as [Hrange|Hrange].
    + rewrite !(read_canto_lines_in_range self disk i) by done.
      destruct (file_lines disk (canto_path self i)) as [lines|]; cbn; [|done].
      by rewrite shaped_strip.
    + by rewrite !(read_canto_lines_out_of_range self disk canto_number i).
  - by rewrite !read_canto_lines_not_int.
Qed.

(** X3. With a limit k >= 0, a readable chant in 1..34 is returned as its
    first min(k, v) verses, v being the number of verses: nothing for
    k = 0, the whole chant for k >= v. *)
Theorem read_canto_lines_limit self disk n k (strip_lines : bool)
    (lines : list str) :
  1 <= n <= 34 → chant self disk n = Some lines → 0 <= k →
  let verses := if strip_lines then List.map strip lines else lines in
  ∃ kept dropped,
    read_canto_lines self disk (VInt n) strip_lines (Some k) =
      ([EOpen (canto_path self (IInt n)) ReadMode], Return (Lines kept))
    ∧ verses = kept ++ dropped
    ∧ len kept = Z.min k (len verses)
    ∧ (k = 0 → kept = [])
    ∧ (len verses <= k → kept = verses).
Proof.
  intros Hn Hfile Hk verses.
  exists (take (Z.to_nat k) verses), (drop (Z.to_nat k) verses).
  rewrite (read_canto_lines_readable self disk n strip_lines (Some k) lines Hn Hfile).
  unfold shaped, slice_to. fold verses.
  replace (k <? 0) with false by (symmetry; apply Z.ltb_ge; done).
  assert (Hstop : take (Z.to_nat (Z.min k (len verses))) verses
                  = take (Z.to_nat k) verses).
  { destruct (Z.le_gt_cases k (len verses)) as [Hle|Hgt].
    - by rewrite Z.min_l.
    - rewrite Z.min_r by lia. unfold len in *.
      rewrite !take_ge; [done| |]; lia. }
  rewrite Hstop. split; [reflexivity|]. split; [by rewrite take_drop|].
  split; [|split].
  - unfold len. rewrite length_take. lia.
  - intros ->. done.
  - intros Hall. apply take_ge. unfold len in Hall. lia.
Qed.

(** ** Searching *)

Lemma find_first {A} (f : A → bool) (l : list A) :
  match List.find f l with
  | Some v => ∃ i, l !! i = Some v ∧ f v = true
                   ∧ ∀ j u, (j < i)%nat → l !! j = Some u → f u = false
  | None => ∀ u, u ∈ l → f u = false
  end.
Proof.
  induction l as [|x l IH]; cbn.
  - intros u Hu. by apply elem_of_nil in Hu.
  - destruct (f x) eqn:Hx.
    + exists 0%nat. repeat split; [done|]. intros j u Hj. lia.
    + destruct (List.find f l) as [v|].
      * destruct IH as (i & Hi & Hv & Hbefore). exists (S i). repeat split; [done..|].
        intros [|j] u Hj Hu; [by injection Hu as <-|].
        apply (Hbefore j); [lia | done].
      * intros u [->|Hu]%elem_of_cons; [done | by apply IH].
Qed.

Lemma find_head_filter {A} (f : A → bool) (l : list A) :
  List.find f l = head (List.filter f l).
Proof. induction l as [|x l IH]; cbn; [done|]. by destruct (f x). Qed.

(** X4. For a readable chant in 1..34, [get_verse_with_word] returns the
    first stripped verse, in file order, that contains the word: the verse
    at some index contains it and no verse before that index does. It
    returns [None] exactly when no stripped verse contains the word. *)
Theorem get_verse_with_word_spec self disk n (w : str) (lines : list str) :
  1 <= n <= 34 → chant self disk n = Some lines →
  ∃ found,
    get_verse_with_word self disk (VInt n) (VStr w)
    = ([EOpen (canto_path self (IInt n)) ReadMode], Return found)
    ∧ (found = None ↔ ∀ v, v ∈ List.map strip lines → ¬ occurs_in w v)
    ∧ (∀ v, found = Some v →
         ∃ i, List.map strip lines !! i = Some v
              ∧ occurs_in w v
              ∧ ∀ j u, (j < i)%nat → List.map strip lines !! j = Some u →
                       ¬ occurs_in w u).
Proof.
  intros Hn Hfile. exists (List.find (contains w) (List.map strip lines)).
  unfold get_verse_with_word. cbn [as_str].
  rewrite (read_canto_lines_readable self disk n true None lines Hn Hfile).
  split; [reflexivity|].
  pose proof (find_first (contains w) (List.map strip lines)) as Hfind.
  destruct (List.find (contains w) (List.map strip lines)) as [v|].
  - destruct Hfind as (i & Hi & Hv & Hbefore). split.
    + split; [done|]. intros Hno. exfalso. apply (Hno v).
      * by eapply list_elem_of_lookup_2.
      * by apply contains_spec.
    + intros v' [= <-]. exists i. split; [done|]. split; [by apply contains_spec|].
      intros j u Hj Hu Hocc%contains_spec. by rewrite (Hbefore j u Hj Hu) in Hocc.
  - split; [|done]. split; [|done]. intros _ v Hv Hocc%contains_spec.
    by rewrite (Hfind v Hv) in Hocc.
Qed.

(** X5. Whatever the arguments, [get_verse_with_word] does what
    [get_verses_with_word] does and keeps the first verse found: the two
    have the same effects, raise the same exception, and when the second
    returns a list the first returns its head, [None] for [None]. *)
Theorem first_verse_is_head_of_all self disk canto_number word :
  trace (get_verse_with_word self disk canto_number word)
  = trace (get_verses_with_word self disk canto_number word)
  ∧ result (get_verse_with_word self disk canto_number word)
    = match result (get_verses_with_word self disk canto_number word) with
      | Return found => Return (found ≫= head)
      | Raise e => Raise e
      end.
Proof.
  unfold get_verse_with_word, get_verses_with_word.
  destruct (as_str word) as [w|]; [|done].
  destruct (read_canto_lines self disk canto_number true None)
    as [t [[lines|text]|e]]; cbn; [|done..].
  rewrite find_head_filter. by destruct (List.filter (contains w) lines).
Qed.

(** X6. The empty word is contained in every verse, blank ones included:
    for a readable chant in 1..34, [get_verses_with_word] with [""] returns
    all the stripped verses ([None] for a file without lines),
    [get_verse_with_word] returns the first of them, and [count_word]
    returns the number of characters of the file plus one. *)
Theorem empty_word_matches_everything self disk n (lines : list str) :
  1 <= n <= 34 → chant self disk n = Some lines →
  result (get_verses_with_word self disk (VInt n) (VStr []))
  = Return (or_None (List.map strip lines))
  ∧ result (get_verse_with_word self disk (VInt n) (VStr []))
    = Return (head (List.map strip lines))
  ∧ result (count_word self disk (VInt n) (VStr []))
    = Return (sumZ (List.map len lines) + 1).
Proof.
  intros Hn Hfile.
  unfold get_verses_with_word, get_verse_with_word, count_word. cbn [as_str].
  rewrite (read_canto_lines_readable self disk n true None lines Hn Hfile).
  rewrite (read_canto_lines_readable self disk n false None lines Hn Hfile).
  cbn [shaped]. split; [|split].
  - cbn. do 2 f_equal. induction (List.map strip lines) as [|v vs IH]; [done|].
    cbn. rewrite IH. by destruct v.
  - cbn. f_equal. rewrite find_head_filter.
    destruct (List.map strip lines) as [|v vs]; [done|]. by destruct v.
  - cbn. f_equal. unfold count, join.
    assert (Hcount : ∀ s : str, count_from [] s 0 = S (length s)).
    { induction s as [|c s IH]; [done|]. cbn. by rewrite IH. }
    rewrite Hcount. clear. induction lines as [|l lines IH]; [done|].
    change (sumZ (List.map len (l :: lines)))
      with (len l + sumZ (List.map len lines)).
    cbn [concat]. rewrite length_app. unfold len in *. lia.
Qed.

(** ** Failures of the single-chant operations *)

(** X7. When the file of a chant in 1..34 cannot be read,
    [read_canto_lines] does not raise: it returns the message
    "error while opening <path>". Every other single-chant operation turns
    that message into an [Exception] "Error reading chant <n>: ...", after
    that one attempt to open the file; [count_words] then writes no
    report. *)
Theorem unreadable_chant_fails self disk n :
  1 <= n <= 34 → chant self disk n = None →
  let opened := [EOpen (canto_path self (IInt n)) ReadMode] in
  (∀ strip_lines num_lines,
      read_canto_lines self disk (VInt n) strip_lines num_lines
      = (opened,
         Return (Message (lit "error while opening " ++ canto_path self (IInt n)))))
  ∧ count_verses self disk (VInt n) = (opened, Raise (read_error self n))
  ∧ count_tercets self disk (VInt n) = (opened, Raise (read_error self n))
  ∧ (∀ word, count_word self disk (VInt n) (VStr word)
             = (opened, Raise (read_error self n)))
  ∧ (∀ word, get_verse_with_word self disk (VInt n) (VStr word)
             = (opened, Raise (read_error self n)))
  ∧ (∀ word, get_verses_with_word self disk (VInt n) (VStr word)
             = (opened, Raise (read_error self n)))
  ∧ get_longest_verse self disk (VInt n) = (opened, Raise (read_error self n))
  ∧ (∀ words, count_words self disk (VInt n) (VList (List.map VStr words))
              = (opened, Raise (read_error self n))).
Proof.
  intros Hn Hfile opened.
  assert (Hread : ∀ strip_lines num_lines,
             read_canto_lines self disk (VInt n) strip_lines num_lines
             = (opened,
                Return (Message (lit "error while opening "
                                 ++ canto_path self (IInt n))))).
  { intros strip_lines num_lines.
    rewrite (read_canto_lines_in_range self disk (IInt n)) by (cbn; done).
    unfold chant in Hfile. by rewrite Hfile. }
  split; [exact Hread|].
  unfold count_tercets, count_verses, count_word, get_verse_with_word,
    get_verses_with_word, get_longest_verse, count_words.
  repeat split; intros; rewrite ?as_str_list_strings; cbn [as_str];
    rewrite Hread; reflexivity.
Qed.

(** X8. The type of the word argument is checked before the chant number:
    whatever the chant number, even a wrong one, a word that is not a [str]
    makes [count_word], [get_verse_with_word] and [get_verses_with_word]
    raise [TypeError] naming the type received, and a [words] argument that
    is not a list of [str] makes [count_words] do the same; no file is
    opened. *)
Theorem ill_typed_words_rejected_first self disk canto_number :
  (∀ word, as_str word = None →
     let e := TypeError (lit "word must be of type string, is " ++ type_name word) in
     count_word self disk canto_number word = raise e
     ∧ get_verse_with_word self disk canto_number word = raise e
     ∧ get_verses_with_word self disk canto_number word = raise e)
  ∧ (∀ words, as_str_list words = None →
       count_words self disk canto_number words
       = raise (TypeError (lit "words must be a list of strings, is "
                           ++ type_name words))).
Proof.
  split.
  - intros word Hword e.
    unfold count_word, get_verse_with_word, get_verses_with_word.
    rewrite Hword. done.
  - intros words Hwords. unfold count_words. by rewrite Hwords.
Qed.

Lemma read_at_most_once self disk canto_number strip_lines num_lines :
  at_most_one_read self canto_number
    (trace (read_canto_lines self disk canto_number strip_lines num_lines)).
Proof.
  destruct (as_int canto_number) as [i|] eqn:Hint.
  - destruct (decide (1 <= int_val i <= 34)) as [Hrange|Hrange].
    + rewrite (read_canto_lines_in_range self disk i) by done.
      right. by exists i.
    + rewrite (read_canto_lines_out_of_range self disk canto_number i) by done.
      by left.
  - rewrite read_canto_lines_not_int by done. by left.
Qed.

(** X9. The single-chant queries other than [count_words] are read-only
    and touch one file at most: whatever the arguments and whatever the
    outcome, each of them either has no effect at all or opens, once and
    for reading, the file of the chant asked for; none prints or writes. *)
Theorem single_chant_queries_read_only self disk canto_number word
    (strip_lines : bool) (num_lines : option Z) :
  at_most_one_read self canto_number
    (trace (read_canto_lines self disk canto_number strip_lines num_lines))
  ∧ at_most_one_read self canto_number
      (trace (count_verses self disk canto_number))
  ∧ at_most_one_read self canto_number
      (trace (count_tercets self disk canto_number))
  ∧ at_most_one_read self canto_number
      (trace (count_word self disk canto_number word))
  ∧ at_most_one_read self canto_number
      (trace (get_verse_with_word self disk canto_number word))
  ∧ at_most_one_read self canto_number
      (trace (get_verses_with_word self disk canto_number word))
  ∧ at_most_one_read self canto_number
      (trace (get_longest_verse self disk canto_number)).
Proof.
  split; [apply read_at_most_once|].
  pose proof (read_at_most_once self disk canto_number false None) as Hraw.
  pose proof (read_at_most_once self disk canto_number true None) as Hstr.
  unfold count_tercets, count_verses, count_word, get_verse_with_word,
    get_verses_with_word, get_longest_verse.
  destruct (read_canto_lines self disk canto_number false None)
    as [t1 [[l1|m1]|e1]];
  destruct (read_canto_lines self disk canto_number true None)
    as [t2 [[l2|m2]|e2]];
  cbn in Hraw, Hstr;
  (repeat split; try (destruct (as_str word); [|by left]); cbn;
   rewrite ?app_nil_r; assumption).
Qed.

(** ** The word report *)

Lemma foldl_insert_lookup_other (f : str → Z) (words : list str)
    (d : gmap str Z) (w : str) :
  w ∉ words →
  foldl (fun d word => <[word := f word]> d) d words !! w = d !! w.
Proof.
  revert d. induction words as [|word words IH]; intros d Hw; cbn; [done|].
  apply not_elem_of_cons in Hw as [Hne Hw].
  rewrite IH by done. by rewrite lookup_insert_ne.
Qed.

(** X10. For a readable chant in 1..34 and a list of words,
    [count_words] opens the chant, then opens [word_counts.json] for
    writing. If the report can be written, the dictionary dumped is the
    dictionary returned; its keys are exactly the words asked for, a word
    asked for twice giving one key, each with its count in the joined
    stripped verses. If writing fails, the call raises an [Exception]
    "Error writing to JSON file word_counts.json: ..." and returns no
    counts. *)
Theorem count_words_report self disk n (words : list str) (lines : list str) :
  1 <= n <= 34 → chant self disk n = Some lines →
  let opened := [EOpen (canto_path self (IInt n)) ReadMode;
                 EOpen (lit "word_counts.json") WriteMode] in
  match report_failure disk with
  | None =>
      ∃ word_counts : gmap str Z,
        count_words self disk (VInt n) (VList (List.map VStr words))
        = (opened ++ [EDump word_counts], Return word_counts)
        ∧ (∀ w, w ∈ words →
             word_counts !! w = Some (count (join (List.map strip lines)) w))
        ∧ (∀ w, w ∉ words → word_counts !! w = None)
  | Some e =>
      count_words self disk (VInt n) (VList (List.map VStr words))
      = (opened,
         Raise (Exception (lit "Error writing to JSON file "
                           ++ lit "word_counts.json" ++ lit ": " ++ e)))
  end.
Proof.
  intros Hn Hfile opened. unfold count_words. rewrite as_str_list_strings.
  rewrite (read_canto_lines_readable self disk n true None lines Hn Hfile).
  destruct (report_failure disk) as [e|]; [reflexivity|].
  eexists. split; [reflexivity|]. split.
  - intros w Hw.
    apply (foldl_insert_lookup (count (join (List.map strip lines)))). by left.
  - intros w Hw.
    by rewrite (foldl_insert_lookup_other (count (join (List.map strip lines)))).
Qed.

(** ** Counting a word *)

Lemma startswith_length (sub s : str) :
  startswith sub s = true → (length sub <= length s)%nat.
Proof.
  intros [b ->]%startswith_spec. rewrite length_app. lia.
Qed.

Lemma count_from_positive (sub s : str) :
  (0 < count_from sub s 0)%nat ↔ contains sub s = true.
Proof.
  induction s as [|c s IH].
  - cbn. destruct sub; cbn; [split; [done|lia] | split; [lia|done]].
  - change (contains sub (c :: s))
      with (startswith sub (c :: s) || contains sub s).
    cbn [count_from]. destruct (startswith sub (c :: s)); cbn [orb].
    + split; [done|lia].
    + exact IH.
Qed.

(** Matches do not overlap: each takes [length sub] characters of its own,
    after the [skip] characters still covered by the previous match. *)
Lemma count_from_bound (sub s : str) (skip : nat) :
  sub ≠ [] →
  (count_from sub s skip * length sub <= length s - skip)%nat.
Proof.
  intros Hsub. revert skip. induction s as [|c s IH]; intros skip.
  - cbn. destruct sub; [done|]. cbn. lia.
  - cbn [count_from]. destruct skip as [|k].
    + destruct (startswith sub (c :: s)) eqn:Hstart.
      * apply startswith_length in Hstart. specialize (IH (Nat.pred (length sub))).
        destruct sub as [|a sub]; [done|]. cbn [length Nat.pred] in *. nia.
      * specialize (IH 0%nat). cbn [length]. lia.
    + specialize (IH k). cbn [length]. lia.
Qed.

(** X11. For a readable chant in 1..34, [count_word] returns a count that
    is positive exactly when the word occurs in the concatenation of the
    raw lines, and, for a non-empty word, small enough for the matches not
    to overlap: count times the length of the word is at most the number of
    characters of the file. *)
Theorem count_word_bounds self disk n (w : str) (lines : list str) :
  1 <= n <= 34 → chant self disk n = Some lines →
  ∃ c,
    result (count_word self disk (VInt n) (VStr w)) = Return c
    ∧ 0 <= c
    ∧ (0 < c ↔ occurs_in w (join lines))
    ∧ (w ≠ [] → c * len w <= len (join lines)).
Proof.
  intros Hn Hfile. exists (count (join lines) w).
  rewrite (count_word_readable self disk n w lines Hn Hfile).
  split; [reflexivity|]. unfold count. split; [lia|]. split.
  - rewrite <- contains_spec, <- count_from_positive. lia.
  - intros Hw. pose proof (count_from_bound w (join lines) 0 Hw). unfold len. nia.
Qed.

(** ** The corpus as a whole *)

Lemma map_seq_from {B} (g : nat → B) (s q : nat) :
  List.map g (seq s q) = List.map (fun i => g (s + i)%nat) (seq 0 q).
Proof.
  revert s g. induction q as [|q IH]; intros s g; [done|].
  cbn [seq List.map]. f_equal; [f_equal; lia|].
  rewrite (IH (S s) g), (IH 1%nat (fun i => g (s + i)%nat)).
  apply List.map_ext. intros i. f_equal. lia.
Qed.

Lemma range_split (a b n : Z) :
  a <= n < b → range a b = range a n ++ n :: range (n + 1) b.
Proof.
  intros Hn. unfold range.
  replace (Z.to_nat (b - a))
    with (Z.to_nat (n - a) + S (Z.to_nat (b - (n + 1))))%nat by lia.
  rewrite seq_app, List.map_app. f_equal.
  rewrite map_seq_from. cbn [seq List.map]. f_equal; [lia|].
  rewrite (map_seq_from _ 1). apply List.map_ext. intros i. lia.
Qed.

Lemma foldl_app_flat_map {A B} (f : A → list B) (xs : list A) (acc : list B) :
  foldl (fun acc x => acc ++ f x) acc xs = acc ++ flat_map f xs.
Proof.
  revert acc. induction xs as [|x xs IH]; intros acc; cbn.
  - by rewrite app_nil_r.
  - by rewrite IH, app_assoc.
Qed.

Lemma len_flat_map {A B} (f : A → list B) (xs : list A) :
  len (flat_map f xs) = sumZ (List.map (fun x => len (f x)) xs).
Proof.
  induction xs as [|x xs IH]; [done|].
  cbn [flat_map List.map]. change (sumZ (?y :: ?l)) with (y + sumZ l).
  rewrite <- IH. unfold len. rewrite length_app. lia.
Qed.

Lemma sumZ_app (l k : list Z) : sumZ (l ++ k) = sumZ l + sumZ k.
Proof.
  induction l as [|x l IH]; [done|].
  cbn [app]. change (sumZ (?y :: ?l)) with (y + sumZ l). lia.
Qed.

Lemma sum_len_flat_map {A} (f : A → list str) (xs : list A) :
  sum_len (flat_map f xs) = sumZ (List.map (fun x => sum_len (f x)) xs).
Proof.
  induction xs as [|x xs IH]; [done|].
  cbn [flat_map List.map]. change (sumZ (?y :: ?l)) with (y + sumZ l).
  rewrite <- IH, !sum_len_sumZ, List.map_app, sumZ_app. done.
Qed.

Section Corpus.

Variable self : Virgilio.
Variable disk : Disk.

(** One turn of the loop of [get_hell_verses]. *)
Lemma get_hell_verses_turn (hell_verses : list str) (n : Z) :
  1 <= n <= 34 →
  try_except
    (let* lines := read_canto_lines self disk (VInt n) true None in
     let* lines := checked (VInt n) lines in
     ret (hell_verses ++ lines))
    (log_error (lit "Canto") n hell_verses)
  = (turn self disk (lit "Canto") n,
     Return (hell_verses ++ chant_verses self disk n)).
Proof.
  intros Hn. rewrite (read_canto_lines_in_range self disk (IInt n)) by (cbn; done).
  unfold turn, chant_verses, chant.
  destruct (file_lines disk (canto_path self (IInt n))) as [lines|].
  - reflexivity.
  - rewrite app_nil_r. reflexivity.
Qed.

Lemma get_hell_verses_total :
  get_hell_verses self disk =
    (flat_map (turn self disk (lit "Canto")) (range 1 35),
     Return (flat_map (chant_verses self disk) (range 1 35))).
Proof.
  unfold get_hell_verses.
  rewrite (for_each_total _ _ (fun acc n => acc ++ chant_verses self disk n)
             (turn self disk (lit "Canto"))).
  - by rewrite foldl_app_flat_map.
  - intros acc n Hn%elem_of_range. apply get_hell_verses_turn. lia.
Qed.

(** [get_hell_verse_mean_len] as two passes over the chants. *)
Lemma get_hell_verse_mean_len_total :
  let total_verses := sumZ (List.map (counted self disk) (range 1 35)) in
  let total_verses_len := sumZ (List.map (counted_len self disk) (range 1 35)) in
  get_hell_verse_mean_len self disk =
    if total_verses =? 0
    then (flat_map (turn self disk (lit "Chant")) (range 1 35), Return zero_float)
    else (flat_map (turn self disk (lit "Chant")) (range 1 35)
          ++ flat_map (turn self disk (lit "Canto")) (range 1 35),
          match nearest_double total_verses_len total_verses with
          | Some q => Return q
          | None =>
              Raise (OverflowError
                       (lit "integer division result too large for a float"))
          end).
Proof.
  intros total_verses total_verses_len. unfold get_hell_verse_mean_len.
  rewrite (bind_returns _ _ _ _ (count_hell_verses_total self disk)).
  fold total_verses.
  destruct (Z.eqb_spec total_verses 0) as [Hz|Hz].
  - cbn. by rewrite app_nil_r.
  - rewrite (for_each_total _ _ (fun acc n => acc + counted_len self disk n)
               (turn self disk (lit "Canto"))).
    + rewrite foldl_add_sumZ, Z.add_0_l. fold total_verses_len. unfold truediv, bind.
      destruct (Z.eqb_spec total_verses 0); [done|].
      destruct (nearest_double total_verses_len total_verses); cbn;
        by rewrite app_nil_r.
    + intros acc n Hn%elem_of_range. apply mean_len_turn. lia.
Qed.

Lemma counted_chant_verses n : counted self disk n = len (chant_verses self disk n).
Proof.
  unfold counted, chant_verses. destruct (chant self disk n); [|done].
  unfold len. by rewrite List.length_map.
Qed.

Lemma counted_len_chant_verses n :
  counted_len self disk n = sum_len (chant_verses self disk n).
Proof. unfold counted_len, chant_verses. by destruct (chant self disk n). Qed.

End Corpus.

(** X12. [get_hell_verses] never raises, whatever cannot be read: it
    examines the chants 1..34 in order, printing one line for each
    unreadable one, and returns the stripped verses of the readable chants,
    chant after chant. The verses of chant n stand after those of all
    chants below n and before those of all chants above. *)
Theorem get_hell_verses_spec self disk :
  get_hell_verses self disk =
    (flat_map (turn self disk (lit "Canto")) (range 1 35),
     Return (flat_map (chant_verses self disk) (range 1 35)))
  ∧ ∀ n, 1 <= n <= 34 →
      flat_map (chant_verses self disk) (range 1 35)
      = flat_map (chant_verses self disk) (range 1 n)
        ++ chant_verses self disk n
        ++ flat_map (chant_verses self disk) (range (n + 1) 35).
Proof.
  split; [apply get_hell_verses_total|]. intros n Hn.
  rewrite (range_split 1 35 n) by lia. by rewrite flat_map_app.
Qed.

(** X13. The three corpus-wide figures agree: [count_hell_verses] returns
    the length of the list [get_hell_verses] returns, and
    [get_hell_verse_mean_len] returns 0.0 when that list is empty and
    otherwise divides the number of characters of its verses by its
    length, giving the double nearest to the quotient (and failing only if
    that is too large for a double). *)
Theorem corpus_figures_agree self disk :
  ∃ hell_verses,
    result (get_hell_verses self disk) = Return hell_verses
    ∧ result (count_hell_verses self disk) = Return (len hell_verses)
    ∧ result (get_hell_verse_mean_len self disk)
      = if len hell_verses =? 0 then Return zero_float
        else match nearest_double (sumZ (List.map len hell_verses))
                                  (len hell_verses) with
             | Some q => Return q
             | None =>
                 Raise (OverflowError
                          (lit "integer division result too large for a float"))
             end.
Proof.
  exists (flat_map (chant_verses self disk) (range 1 35)).
  rewrite get_hell_verses_total, count_hell_verses_total.
  rewrite get_hell_verse_mean_len_total.
  rewrite <- sum_len_sumZ.
  rewrite len_flat_map, sum_len_flat_map.
  rewrite (sumZ_ext (counted self disk) _ _ (counted_chant_verses self disk)).
  rewrite (sumZ_ext (counted_len self disk) _ _ (counted_len_chant_verses self disk)).
  split; [done|]. split; [done|].
  by destruct (sumZ (List.map (fun x => len (chant_verses self disk x)) (range 1 35))
               =? 0).
Qed.

(** X14. [get_hell_verse_mean_len] reads the corpus twice. The first pass
    is that of [count_hell_verses]; unless it finds no verse at all, a
    second pass opens every chant again, so that each unreadable chant is
    reported twice, once as "Chant" and once as "Canto". Nothing is ever
    written. *)
Theorem mean_len_reads_twice self disk :
  trace (get_hell_verse_mean_len self disk)
  = trace (count_hell_verses self disk)
    ++ (if sumZ (List.map (counted self disk) (range 1 35)) =? 0 then []
        else flat_map (turn self disk (lit "Canto")) (range 1 35))
  ∧ trace (count_hell_verses self disk)
    = flat_map (turn self disk (lit "Chant")) (range 1 35).
Proof.
  rewrite get_hell_verse_mean_len_total, count_hell_verses_total.
  split; [|done].
  destruct (sumZ (List.map (counted self disk) (range 1 35)) =? 0); cbn;
    by rewrite ?app_nil_r.
Qed.

(** X15. Whatever cannot be read, [get_longest_canto] does not raise. The
    length it returns is at least the verse count of every readable chant.
    It names a chant exactly when some readable chant has a verse: then
    the chant named is readable, has the returned length, and every chant
    of lower number has strictly fewer verses. Otherwise, and in particular
    when no chant can be read, it returns number [None] and length 0. *)
Theorem get_longest_canto_spec self disk :
  ∃ r,
    get_longest_canto self disk
    = (flat_map (turn self disk (lit "Canto")) (range 1 35), Return r)
    ∧ (∀ n, 1 <= n <= 34 → counted self disk n <= canto_len r)
    ∧ match canto_number r with
      | None => canto_len r = 0
      | Some best =>
          1 <= best <= 34
          ∧ is_Some (chant self disk best)
          ∧ 0 < canto_len r
          ∧ canto_len r = counted self disk best
          ∧ ∀ n, 1 <= n < best → counted self disk n < counted self disk best
      end
    ∧ ((∀ n, 1 <= n <= 34 → chant self disk n = None) →
       r = {| canto_number := None; canto_len := 0 |}).
Proof.
  eexists. split; [apply get_longest_canto_total|].
  destruct (better_invariant self disk 1 34) as [Hmax Hbest].
  change (range 1 (1 + Z.of_nat 34)) with (range 1 35) in *.
  destruct (foldl (better self disk) _ (range 1 35)) as [number length_].
  cbn [canto_number canto_len] in *.
  split; [intros n Hn; apply Hmax; lia|]. split.
  - destruct number as [best|]; [|done].
    destruct Hbest as (Hb & Hpos & Heq & Hfirst).
    split; [lia|]. split; [|done].
    unfold counted in Heq. destruct (chant self disk best); [done | lia].
  - intros Hmissing. destruct number as [best|]; [|by rewrite Hbest].
    destruct Hbest as (Hb & Hpos & Heq & _).
    unfold counted in Heq. rewrite Hmissing in Heq; lia.
Qed.

(** ** File names *)

Lemma lit_inj (s t : string) : lit s = lit t → s = t.
Proof.
  unfold lit. intros Heq.
  rewrite <- (string_of_list_ascii_of_string s), <- (string_of_list_ascii_of_string t).
  f_equal. revert Heq.
  generalize (list_ascii_of_string s) (list_ascii_of_string t).
  induction l as [|a l IH]; intros [|b k]; cbn; try done.
  intros [= Hab Hlk]. f_equal; [|by apply IH].
  by rewrite <- (ascii_N_embedding a), <- (ascii_N_embedding b), Hab.
Qed.

Lemma of_int_inj (n m : Z) : of_int n = of_int m → n = m.
Proof.
  unfold of_int. intros Heq%lit_inj. apply DecimalZ.to_int_inj.
  assert (Hparse : ∀ z, NilZero.int_of_string (NilZero.string_of_int (Z.to_int z))
                        = Some (Z.to_int z)).
  { intros z. apply NilZero.isi; destruct z as [|p|p]; cbn; try done;
      intros [= Hnil]; by apply DecimalPos.Unsigned.to_uint_nonnil in Hnil. }
  pose proof (Hparse n) as Hn. rewrite Heq, Hparse in Hn. by injection Hn.
Qed.

Lemma path_join_inj (d x y : str) : path_join d x = path_join d y → x = y.
Proof.
  unfold path_join. destruct (last d) as [c|]; [|done].
  destruct (c =? 47)%N; intros Heq%app_inv_head; [done|].
  by apply app_inv_head in Heq.
Qed.

(** X16. Different chant numbers are read from different files, and no
    chant file is the report: [word_counts.json], the only file ever opened
    for writing, is never the path of a chant. *)
Theorem chant_files_distinct self (n m : Z) :
  (n ≠ m → canto_path self (IInt n) ≠ canto_path self (IInt m))
  ∧ ∀ i, canto_path self i ≠ lit "word_counts.json".
Proof.
  split.
  - intros Hne Heq. apply Hne. unfold canto_path in Heq.
    apply path_join_inj, app_inv_head, app_inv_tail in Heq.
    by apply of_int_inj.
  - intros i Heq. apply (f_equal last) in Heq. revert Heq.
    unfold canto_path, path_join.
    destruct (last (directory self)) as [c|]; [destruct (c =? 47)%N|];
      rewrite ?app_assoc; rewrite last_app; cbn; done.
Qed.

(** ** Importing the module *)

(** X17. Importing the module raises [ValueError], before anything else
    happens, when there is no [chants] directory beside it. Otherwise it
    never raises and never reports a chant as not found: it opens
    [Canto_1.txt]; if that cannot be read it prints the read error and
    writes nothing; if it can, it opens [word_counts.json] in the current
    directory for writing and either dumps and prints the counts of the
    five words "f", "g", "d", "canto", "inferno", or prints the write
    error. *)
Theorem main_spec (module_dir : str) (disk : Disk)
    (repr_dict : gmap str Z → str) :
  let chants := path_join module_dir (lit "chants") in
  let v := {| directory := chants |} in
  let chant_1 := EOpen (canto_path v (IInt 1)) ReadMode in
  let report := EOpen (lit "word_counts.json") WriteMode in
  if isdir disk chants then
    match chant v disk 1, report_failure disk with
    | None, _ =>
        main module_dir disk repr_dict
        = ([chant_1;
            EPrint (lit "An error occurred: " ++ exn_msg (read_error v 1))],
           Return tt)
    | Some lines, Some e =>
        main module_dir disk repr_dict
        = ([chant_1; report;
            EPrint (lit "An error occurred: " ++ lit "Error writing to JSON file "
                    ++ lit "word_counts.json" ++ lit ": " ++ e)],
           Return tt)
    | Some lines, None =>
        ∃ word_counts : gmap str Z,
          main module_dir disk repr_dict
          = ([chant_1; report; EDump word_counts; EPrint (repr_dict word_counts)],
             Return tt)
          ∧ ∀ w, word_counts !! w
                 = if bool_decide (w ∈ [lit "f"; lit "g"; lit "d"; lit "canto";
                                        lit "inferno"])
                   then Some (count (join (List.map strip lines)) w)
                   else None
    end
  else
    main module_dir disk repr_dict
    = raise (ValueError (lit "Directory '" ++ chants ++ lit "' does not exist")).
Proof.
  intros chants v chant_1 report. unfold main, init. fold chants.
  destruct (isdir disk chants); cbn [negb]; [|reflexivity].
  fold v.
  set (words := [lit "f"; lit "g"; lit "d"; lit "canto"; lit "inferno"]).
  change (VList _) with (VList (List.map VStr words)).
  unfold count_words. rewrite as_str_list_strings.
  rewrite (read_canto_lines_in_range v disk (IInt 1))
    by (first [reflexivity | cbn [int_val]; lia]).
  unfold chant. destruct (file_lines disk (canto_path v (IInt 1))) as [lines|].
  - destruct (report_failure disk) as [e|]; [reflexivity|].
    eexists. split; [reflexivity|]. intros w. cbn [shaped]. case_bool_decide.
    + apply (foldl_insert_lookup (count (join (List.map strip lines)))). by left.
    + by rewrite (foldl_insert_lookup_other (count (join (List.map strip lines)))).
  - by destruct (report_failure disk).
Qed.

(** ** The further properties at sample worlds *)

Lemma read_stripped_verses_witness :
  1 <= 1 <= 34
  ∧ chant inferno first_chant_only 1 = Some opening
  ∧ ∃ verses,
      result (read_canto_lines inferno first_chant_only (VInt 1) true (Some 2))
      = Return (Lines verses)
      ∧ ∀ v, v ∈ verses →
          (∃ raw a b, raw ∈ opening ∧ raw = a ++ v ++ b ∧ blank a ∧ blank b)
          ∧ (∀ c, head v = Some c → isspace c = false)
          ∧ (∀ c, last v = Some c → isspace c = false)
          ∧ strip v = v.
Proof.
  split; [lia|]. split; [reflexivity|].
  apply (read_stripped_verses inferno first_chant_only 1 (Some 2) opening);
    [lia | reflexivity].
Defined.

Lemma read_canto_lines_limit_witness :
  1 <= 1 <= 34
  ∧ chant inferno first_chant_only 1 = Some opening
  ∧ 0 <= 2
  ∧ ∃ kept dropped,
      read_canto_lines inferno first_chant_only (VInt 1) false (Some 2) =
        ([EOpen (canto_path inferno (IInt 1)) ReadMode], Return (Lines kept))
      ∧ opening = kept ++ dropped
      ∧ len kept = Z.min 2 (len opening)
      ∧ (2 = 0 → kept = [])
      ∧ (len opening <= 2 → kept = opening).
Proof.
  split; [lia|]. split; [reflexivity|]. split; [lia|].
  apply (read_canto_lines_limit inferno first_chant_only 1 2 false opening);
    [lia | reflexivity | lia].
Defined.

Lemma get_verse_with_word_spec_witness :
  1 <= 1 <= 34
  ∧ chant inferno first_chant_only 1 = Some opening
  ∧ ∃ found,
      get_verse_with_word inferno first_chant_only (VInt 1) (VStr (lit "mi"))
      = ([EOpen (canto_path inferno (IInt 1)) ReadMode], Return found)
      ∧ (found = None
         ↔ ∀ v, v ∈ List.map strip opening → ¬ occurs_in (lit "mi") v)
      ∧ (∀ v, found = Some v →
           ∃ i, List.map strip opening !! i = Some v
                ∧ occurs_in (lit "mi") v
                ∧ ∀ j u, (j < i)%nat → List.map strip opening !! j = Some u →
                         ¬ occurs_in (lit "mi") u).
Proof.
  split; [lia|]. split; [reflexivity|].
  apply (get_verse_with_word_spec inferno first_chant_only 1 (lit "mi") opening);
    [lia | reflexivity].
Defined.

Lemma empty_word_matches_everything_witness :
  1 <= 1 <= 34
  ∧ chant inferno first_chant_only 1 = Some opening
  ∧ result (get_verses_with_word inferno first_chant_only (VInt 1) (VStr []))
    = Return (or_None (List.map strip opening))
  ∧ result (get_verse_with_word inferno first_chant_only (VInt 1) (VStr []))
    = Return (head (List.map strip opening))
  ∧ result (count_word inferno first_chant_only (VInt 1) (VStr []))
    = Return (sumZ (List.map len opening) + 1).
Proof.
  split; [lia|]. split; [reflexivity|].
  apply (empty_word_matches_everything inferno first_chant_only 1 opening);
    [lia | reflexivity].
Defined.

Lemma unreadable_chant_fails_witness :
  1 <= 2 <= 34
  ∧ chant inferno first_chant_only 2 = None
  ∧ count_verses inferno first_chant_only (VInt 2)
    = ([EOpen (canto_path inferno (IInt 2)) ReadMode], Raise (read_error inferno 2))
  ∧ ∀ words,
      count_words inferno first_chant_only (VInt 2) (VList (List.map VStr words))
      = ([EOpen (canto_path inferno (IInt 2)) ReadMode],
         Raise (read_error inferno 2)).
Proof.
  split; [lia|]. split; [reflexivity|].
  destruct (unreadable_chant_fails inferno first_chant_only 2)
    as (_ & Hverses & _ & _ & _ & _ & _ & Hwords); [lia | reflexivity |].
  split; [exact Hverses | exact Hwords].
Defined.

Lemma ill_typed_words_rejected_first_witness :
  as_str (VInt 5) = None
  ∧ count_word inferno first_chant_only (VInt 35) (VInt 5)
    = raise (TypeError (lit "word must be of type string, is " ++ lit "int"))
  ∧ as_str_list (VList [VStr (lit "f"); VInt 5]) = None
  ∧ count_words inferno first_chant_only (VInt 35) (VList [VStr (lit "f"); VInt 5])
    = raise (TypeError (lit "words must be a list of strings, is " ++ lit "list")).
Proof.
  destruct (ill_typed_words_rejected_first inferno first_chant_only (VInt 35))
    as [Hword Hwords].
  split; [reflexivity|]. split; [apply (Hword (VInt 5)); reflexivity|].
  split; [reflexivity|]. apply (Hwords (VList [VStr (lit "f"); VInt 5])). reflexivity.
Defined.

Lemma count_words_report_witness :
  1 <= 1 <= 34
  ∧ chant inferno first_chant_only 1 = Some opening
  ∧ chant inferno unwritable_report 1 = Some opening
  ∧ (∃ word_counts : gmap str Z,
       count_words inferno first_chant_only (VInt 1)
         (VList (List.map VStr [lit "mi"; lit "mi"; lit "vita"]))
       = ([EOpen (canto_path inferno (IInt 1)) ReadMode;
           EOpen (lit "word_counts.json") WriteMode] ++ [EDump word_counts],
          Return word_counts)
       ∧ (∀ w, w ∈ [lit "mi"; lit "mi"; lit "vita"] →
            word_counts !! w = Some (count (join (List.map strip opening)) w))
       ∧ (∀ w, w ∉ [lit "mi"; lit "mi"; lit "vita"] → word_counts !! w = None))
  ∧ count_words inferno unwritable_report (VInt 1)
      (VList (List.map VStr [lit "mi"; lit "mi"; lit "vita"]))
    = ([EOpen (canto_path inferno (IInt 1)) ReadMode;
        EOpen (lit "word_counts.json") WriteMode],
       Raise (Exception
                (lit "Error writing to JSON file " ++ lit "word_counts.json"
                 ++ lit ": "
                 ++ lit "[Errno 13] Permission denied: 'word_counts.json'"))).
Proof.
  split; [lia|]. split; [reflexivity|]. split; [reflexivity|]. split.
  - apply (count_words_report inferno first_chant_only 1
             [lit "mi"; lit "mi"; lit "vita"] opening); [lia | reflexivity].
  - apply (count_words_report inferno unwritable_report 1
             [lit "mi"; lit "mi"; lit "vita"] opening); [lia | reflexivity].
Defined.

Lemma count_word_bounds_witness :
  1 <= 1 <= 34
  ∧ chant inferno first_chant_only 1 = Some opening
  ∧ ∃ c,
      result (count_word inferno first_chant_only (VInt 1) (VStr (lit "i")))
      = Return c
      ∧ 0 <= c
      ∧ (0 < c ↔ occurs_in (lit "i") (join opening))
      ∧ (lit "i" ≠ [] → c * len (lit "i") <= len (join opening)).
Proof.
  split; [lia|]. split; [reflexivity|].
  apply (count_word_bounds inferno first_chant_only 1 (lit "i") opening);
    [lia | reflexivity].
Defined.

Lemma get_hell_verses_spec_witness :
  1 <= 3 <= 34
  ∧ flat_map (chant_verses inferno full_corpus) (range 1 35)
    = flat_map (chant_verses inferno full_corpus) (range 1 3)
      ++ chant_verses inferno full_corpus 3
      ++ flat_map (chant_verses inferno full_corpus) (range (3 + 1) 35).
Proof.
  split; [lia|].
  apply (proj2 (get_hell_verses_spec inferno full_corpus) 3). lia.
Defined.

Lemma get_longest_canto_spec_witness :
  (∀ n, 1 <= n <= 34 → chant inferno empty_disk n = None)
  ∧ result (get_longest_canto inferno empty_disk)
    = Return {| canto_number := None; canto_len := 0 |}.
Proof.
  assert (Hmissing : ∀ n, 1 <= n <= 34 → chant inferno empty_disk n = None)
    by (intros n Hn; reflexivity).
  split; [exact Hmissing|].
  destruct (get_longest_canto_spec inferno empty_disk) as (r & Hrun & _ & _ & Hnone).
  rewrite Hrun. cbn [result snd]. f_equal. exact (Hnone Hmissing).
Defined.

Lemma chant_files_distinct_witness :
  1 ≠ 2 ∧ canto_path inferno (IInt 1) ≠ canto_path inferno (IInt 2).
Proof.
  split; [lia|]. apply (proj1 (chant_files_distinct inferno 1 2)). lia.
Defined.
